(** * The KFP command line front end: [kfp/cli/compile.py] and [kfp/cli/cli.py]

    A shallow embedding of the two Python modules.  Python code that mutates
    process-global state ([sys.path], the pipeline decorator hook, the list
    shared between [add_pipeline] and its caller) is written in a state and
    exception monad over an explicit [World]; calls that leave the two
    modules (logging, [Compiler().compile], [click.echo], [Client(...)]) are
    recorded in a chronological trace so that "is called with" and "is not
    called" are statements about that trace. *)

From Stdlib Require Import Ascii.
From stdpp Require Import base list strings gmap pretty.

Open Scope string_scope.
Open Scope list_scope.

(** ** Python data *)

(** A function object: two function objects are the same object iff their
    identities agree; [__name__] need not be unique.  Function objects are
    always truthy, which is what [if not pipeline_func] relies on. *)
Record Func := { __name__ : string; func_id : nat }.

#[global] Instance Func_eq_dec : EqDecision Func.
Proof. solve_decision. Defined.

(** What [json.loads] can return.  A JSON object becomes a [dict]: a finite
    map with unique string keys. *)
#[local] Unset Elimination Schemes.
Inductive json :=
| JNull
| JBool (b : bool)
| JInt (z : Z)
| JFloat (lexeme : string)
| JStr (s : string)
| JList (l : list json)
| JDict (d : gmap string json).
#[local] Set Elimination Schemes.

(** The empty dictionary literal. *)
Definition empty_dict : json := JDict ∅.

(** Exceptions, tagged by class.  Each carries what [str(e)] shows.
    [SystemExit] and [KeyboardInterrupt] derive from [BaseException] only;
    [JSONDecodeError] derives from [ValueError]. *)
Inductive exn :=
| ValueError (msg : string)
| JSONDecodeError (msg : string)
| IndexError (msg : string)
| AttributeError (msg : string)
| KeyError (msg : string)
| ImportError (msg : string)
| OtherException (cls msg : string)
| SystemExit (code : Z)
| KeyboardInterrupt.

Definition str_exn (e : exn) : string :=
  match e with
  | ValueError m | JSONDecodeError m | IndexError m | AttributeError m
  | KeyError m | ImportError m | OtherException _ m => m
  | SystemExit c => pretty c
  | KeyboardInterrupt => ""
  end.

(** [isinstance(e, Exception)] *)
Definition isinstance_Exception (e : exn) : bool :=
  match e with
  | SystemExit _ | KeyboardInterrupt => false
  | _ => true
  end.

(** [isinstance(e, json.JSONDecodeError)] *)
Definition isinstance_JSONDecodeError (e : exn) : bool :=
  match e with JSONDecodeError _ => true | _ => false end.

(** [isinstance(e, ValueError)] *)
Definition isinstance_ValueError (e : exn) : bool :=
  match e with ValueError _ | JSONDecodeError _ => true | _ => false end.

(** Truthiness of an [Optional[str]]: [None] and the empty string are falsy. *)
Definition truthy (s : option string) : bool :=
  match s with
  | None | Some "" => false
  | Some _ => true
  end.

(** ** The process state *)

(** Address of a list object on the heap. *)
Abbreviation loc := nat (only parsing).

(** The callables that are ever stored in
    [pipeline_context.pipeline_decorator_handler]: closures of [add_pipeline],
    each holding a reference to the list it appends to. *)
Inductive callable := add_pipeline_closure (pipeline_funcs : loc).

#[global] Instance callable_eq_dec : EqDecision callable.
Proof. solve_decision. Defined.

(** Keyword arguments of one [Compiler().compile(...)] call. *)
Record CompileCall := {
  pipeline_func : Func;
  pipeline_parameters : option json;
  package_path : string;
  type_check : bool
}.

(** Positional arguments of one [Client(...)] construction. *)
Record ClientArgs := {
  host : option string;
  client_id : option string;
  client_namespace : string;
  client_other_client_id : option string;
  client_other_client_secret : option string
}.

(** Calls that leave the module, in the order they happen. *)
Inductive event :=
| EvImport (name : string) (path : list string)
| EvLoggingError (msg : string)
| EvCompile (c : CompileCall)
| EvEcho (err : bool) (msg : string)
| EvBasicConfig
| EvClient (a : ClientArgs)
| EvFileAppend (path text : string).

Record World := {
  sys_path : list string;
  pipeline_decorator_handler : option callable;
  heap : list (list Func);
  trace : list event
}.

Definition set_sys_path (p : list string) (w : World) : World :=
  {| sys_path := p; pipeline_decorator_handler := pipeline_decorator_handler w;
     heap := heap w; trace := trace w |}.
Definition set_handler (h : option callable) (w : World) : World :=
  {| sys_path := sys_path w; pipeline_decorator_handler := h;
     heap := heap w; trace := trace w |}.
Definition set_heap (h : list (list Func)) (w : World) : World :=
  {| sys_path := sys_path w; pipeline_decorator_handler := pipeline_decorator_handler w;
     heap := h; trace := trace w |}.
Definition emit (ev : event) (w : World) : World :=
  {| sys_path := sys_path w; pipeline_decorator_handler := pipeline_decorator_handler w;
     heap := heap w; trace := trace w ++ [ev] |}.

(** The [Compiler().compile] calls of a trace, oldest first. *)
Definition compile_calls (t : list event) : list CompileCall :=
  omap (λ ev, match ev with EvCompile c => Some c | _ => None end) t.

(** The messages echoed to stderr in a trace, oldest first. *)
Definition stderr_lines (t : list event) : list string :=
  omap (λ ev, match ev with EvEcho true msg => Some msg | _ => None end) t.

(** The [Client(...)] constructions of a trace, oldest first. *)
Definition client_calls (t : list event) : list ClientArgs :=
  omap (λ ev, match ev with EvClient a => Some a | _ => None end) t.

(** ** Statements of an imported file

    What a user file can do to the state this module cares about while it is
    being imported. *)
Inductive stmt :=
| Decorate (f : Func)                 (* @dsl.pipeline applied to f *)
| AssignHandler (h : option callable) (* pipeline_context.pipeline_decorator_handler = h *)
| AssignSysPath (p : list string)     (* sys.path[:] = p *)
| RaiseStmt (e : exn).                (* raise e *)

Definition assigns_sys_path (s : stmt) : bool :=
  match s with AssignSysPath _ => true | _ => false end.

(** ** What lies outside the two modules

    The standard library and the rest of the SDK, taken as parameters. *)
Class Externals := {
  os_path_dirname : string → string;
  os_path_basename : string → string;
  os_path_splitext : string → string * string;
  (** [json.loads]: the decoded value, or the text of the [JSONDecodeError] *)
  json_loads : string → json + string;
  (** [repr] of a [str] *)
  repr_str : string → string;
  (** the top-level code of the module that [__import__(name)] runs when
      [sys.path] is [path] *)
  module_code : string → list string → list stmt;
  (** whether [Compiler().compile] raises on these arguments *)
  Compiler_compile : CompileCall → option exn;
  (** whether [Client(...)] raises on these arguments *)
  Client_init : ClientArgs → option exn;
  os_path_expanduser : string → string;
  os_path_join : string → list string → string;
  (** whether [open(path, 'a')] raises (no such directory, no permission) *)
  open_append : string → option exn
}.

(** ** The monad: state plus exceptions *)

Inductive outcome (A : Type) :=
| Ret (a : A)
| Raise (e : exn).
Arguments Ret {A} a.
Arguments Raise {A} e.

Definition M (A : Type) : Type := World → World * outcome A.

#[global] Instance M_ret : MRet M := λ A a w, (w, Ret a).
#[global] Instance M_bind : MBind M := λ A B f c w,
  match c w with
  | (w', Ret a) => f a w'
  | (w', Raise e) => (w', Raise e)
  end.

Definition raise {A} (e : exn) : M A := λ w, (w, Raise e).
Definition get : M World := λ w, (w, Ret w).
Definition modify (f : World → World) : M unit := λ w, (f w, Ret tt).

(** [try: c  except <class> as e: h e] *)
Definition try_except {A} (c : M A) (class : exn → bool) (h : exn → M A) : M A :=
  λ w, match c w with
       | (w', Raise e) => if class e then h e w' else (w', Raise e)
       | r => r
       end.

(** [try: c  finally: fin].  An exception raised by [fin] replaces whatever
    [c] produced. *)
Definition try_finally {A} (c : M A) (fin : M unit) : M A :=
  λ w, let '(w1, r) := c w in
       match fin w1 with
       | (w2, Ret _) => (w2, r)
       | (w2, Raise e) => (w2, Raise e)
       end.

(** [with mgr as x: body x], for a manager whose [__exit__] returns [None]
    (falsy), so an exception of the body is re-raised after [__exit__]. *)
Definition with_as {S X A} (mgr : S) (enter : S → M (S * X)) (exit : S → M unit)
    (body : X → M A) : M A :=
  '(self, x) ← enter mgr;
  λ w, let '(w1, r) := body x w in
       match exit self w1 with
       | (w2, Ret _) => (w2, r)
       | (w2, Raise e) => (w2, Raise e)
       end.

(** ** Primitive effects *)

Section compile_py.
Context `{Ext : Externals}.

(** [sys.path.insert(i, x)]; an index past the end appends. *)
Definition sys_path_insert (i : nat) (x : string) : M unit :=
  modify (λ w, set_sys_path (take i (sys_path w) ++ x :: drop i (sys_path w)) w).

(** [del sys.path[i]]; raises [IndexError] when there is no such item. *)
Definition del_sys_path (i : nat) : M unit :=
  w ← get;
  if decide (i < length (sys_path w))
  then modify (set_sys_path (delete i (sys_path w)))
  else raise (IndexError "list assignment index out of range").

(** [[]]: allocate a fresh empty list object. *)
Definition new_list : M loc :=
  λ w, (set_heap (heap w ++ [[]]) w, Ret (length (heap w))).

(** [l.append(x)] *)
Definition list_append (l : loc) (x : Func) : M unit :=
  modify (λ w, match heap w !! l with
               | Some fs => set_heap (<[l := fs ++ [x]]> (heap w)) w
               | None => w
               end).

(** Read the items of a list object. *)
Definition list_items (l : loc) : M (list Func) :=
  w ← get; mret (default [] (heap w !! l)).

Definition logging_error (msg : string) : M unit := modify (emit (EvLoggingError msg)).
Definition logging_basicConfig : M unit := modify (emit EvBasicConfig).
Definition click_echo (msg : string) (err : bool) : M unit := modify (emit (EvEcho err msg)).

(** [sys.exit(code)] raises [SystemExit]. *)
Definition sys_exit {A} (code : Z) : M A := raise (SystemExit code).

(** [compiler.Compiler().compile(...)].  The compiler is outside the two
    modules: the call is recorded with its arguments and either returns or
    raises; it is taken to leave [sys.path], the handler and the collected
    list as they are. *)
Definition Compiler_compile_call (c : CompileCall) : M unit :=
  modify (emit (EvCompile c));;
  match Compiler_compile c with
  | None => mret tt
  | Some e => raise e
  end.

(** [json.loads(s)] *)
Definition json_loads_call (s : string) : M json :=
  match json_loads s with
  | inl v => mret v
  | inr msg => raise (JSONDecodeError msg)
  end.

(** [str] of a list of strings: the [repr] of each item, comma separated,
    in brackets. *)
Fixpoint join (sep : string) (l : list string) : string :=
  match l with
  | [] => ""
  | [x] => x
  | x :: l' => x +:+ sep +:+ join sep l'
  end.
Definition str_list (l : list string) : string :=
  "[" +:+ join ", " (repr_str <$> l) +:+ "]".

Definition dquote : string := String (Ascii.ascii_of_nat 34) EmptyString.

(** ** [_compile_pipeline_function] *)

Definition no_pipeline_msg : string :=
  "A function with @dsl.pipeline decorator is required in the py file.".
Definition multiple_pipelines_msg (func_names : list string) : string :=
  "There are multiple pipelines: " +:+ str_list func_names +:+ ". Please specify --function.".
Definition not_exist_msg (function_name : string) : string :=
  "The function " +:+ dquote +:+ function_name +:+ dquote +:+ " does not exist. "
  +:+ "Did you forget @dsl.pipeline decoration?".

(** [next((x for x in pipeline_funcs if x.__name__ == function_name), None)] *)
Definition next_named (pipeline_funcs : list Func) (function_name : string) : option Func :=
  find (λ x, String.eqb (__name__ x) function_name) pipeline_funcs.

Definition _compile_pipeline_function (pipeline_funcs : list Func)
    (function_name : option string) (pipeline_parameters : option json)
    (package_path : string) (type_check : bool) : M unit :=
  if bool_decide (length pipeline_funcs = 0) then raise (ValueError no_pipeline_msg) else
  if bool_decide (1 < length pipeline_funcs) && negb (truthy function_name) then
    let func_names := __name__ <$> pipeline_funcs in
    raise (ValueError (multiple_pipelines_msg func_names))
  else
  pipeline_func ←
    (if truthy function_name then
       match next_named pipeline_funcs (default "" function_name) with
       | Some pipeline_func => mret pipeline_func
       | None => raise (ValueError (not_exist_msg (default "" function_name)))
       end
     else
       match pipeline_funcs !! 0 with
       | Some pipeline_func => mret pipeline_func
       | None => raise (IndexError "list index out of range")
       end);
  Compiler_compile_call
    {| pipeline_func := pipeline_func; pipeline_parameters := pipeline_parameters;
       package_path := package_path; type_check := type_check |}.

(** ** [PipelineCollectorContext] *)

(** An instance; [old_handler] is unset until [__enter__] has run. *)
Record PipelineCollectorContext := { old_handler : option (option callable) }.

Definition PipelineCollectorContext_new : PipelineCollectorContext :=
  {| old_handler := None |}.

(** The closure defined inside [__enter__]. *)
Definition add_pipeline (pipeline_funcs : loc) (func : Func) : M Func :=
  list_append pipeline_funcs func;;
  mret func.

Definition __enter__ (self : PipelineCollectorContext) : M (PipelineCollectorContext * loc) :=
  pipeline_funcs ← new_list;
  w ← get;
  let self := {| old_handler := Some (pipeline_decorator_handler w) |} in
  modify (set_handler (Some (add_pipeline_closure pipeline_funcs)));;
  mret (self, pipeline_funcs).

Definition __exit__ (self : PipelineCollectorContext) : M unit :=
  match old_handler self with
  | Some h => modify (set_handler h)
  | None => raise (AttributeError "'PipelineCollectorContext' object has no attribute 'old_handler'")
  end.

(** Calling a stored handler. *)
Definition call (h : callable) (func : Func) : M Func :=
  match h with add_pipeline_closure l => add_pipeline l func end.

(** Modelled from the spec: the [@dsl.pipeline] decorator of
    [kfp.components.pipeline_context], which is outside the two modules.  It
    hands the decorated function to the module-level callback when one is
    installed ("a module-level callback to collect decorated functions during
    import") and yields the function it was given. *)
Definition decorate (func : Func) : M Func :=
  w ← get;
  match pipeline_decorator_handler w with
  | Some h => call h func
  | None => mret func
  end.

(** ** Importing a user file *)

Definition exec_stmt (s : stmt) : M unit :=
  match s with
  | Decorate f => decorate f;; mret tt
  | AssignHandler h => modify (set_handler h)
  | AssignSysPath p => modify (set_sys_path p)
  | RaiseStmt e => raise e
  end.

Fixpoint exec (m : list stmt) : M unit :=
  match m with
  | [] => mret tt
  | s :: m' => exec_stmt s;; exec m'
  end.

(** [__import__(name)]: look the module up along [sys.path] and run its top
    level. *)
Definition __import__ (name : string) : M unit :=
  w ← get;
  modify (emit (EvImport name (sys_path w)));;
  exec (module_code name (sys_path w)).

(** ** [dsl_compile] *)

(** Lines 124-125: the [with] block around the import.  The list bound by
    [as] stays reachable after the block. *)
Definition collect_pipelines (filename : string) : M loc :=
  with_as PipelineCollectorContext_new __enter__ __exit__
    (λ pipeline_funcs,
       __import__ (os_path_splitext filename).1;;
       mret pipeline_funcs).

(** The f-string of line 131. *)
Definition parse_failure_msg (pipeline_parameters : option string) : string :=
  "Failed to parse --pipeline-parameters argument: " +:+ default "None" pipeline_parameters.

(** Lines 126-133: decode [--pipeline-parameters]. *)
Definition parse_parameters (pipeline_parameters : option string) : M json :=
  try_except
    (match pipeline_parameters with
     | Some s => json_loads_call s
     | None => mret empty_dict
     end)
    isinstance_JSONDecodeError
    (λ e,
       logging_error (parse_failure_msg pipeline_parameters);;
       raise e).

(** Lines 123-140: the body of the outer [try]. *)
Definition dsl_compile_try (py output : string) (function_name : option string)
    (pipeline_parameters : option string) (disable_type_check : bool) : M unit :=
  let filename := os_path_basename py in
  pipeline_funcs ← collect_pipelines filename;
  parsed_parameters ← parse_parameters pipeline_parameters;
  funcs ← list_items pipeline_funcs;
  _compile_pipeline_function funcs function_name (Some parsed_parameters)
    output (negb disable_type_check).

Definition dsl_compile (py output : string) (function_name : option string)
    (pipeline_parameters : option string) (disable_type_check : bool) : M unit :=
  sys_path_insert 0 (os_path_dirname py);;
  try_finally
    (dsl_compile_try py output function_name pipeline_parameters disable_type_check)
    (del_sys_path 0).

(** ** Observations used in the statements

    Lines 121-125 on their own: put the directory first on [sys.path], run
    the import inside the collector, and read the list it has filled. *)
Definition imported (py : string) : M (list Func) :=
  sys_path_insert 0 (os_path_dirname py);;
  pipeline_funcs ← collect_pipelines (os_path_basename py);
  list_items pipeline_funcs.

(** The state in which the body of the [with] block starts: a fresh empty
    list, and its [add_pipeline] closure installed as the handler. *)
Definition entered (w : World) : World :=
  set_handler (Some (add_pipeline_closure (length (heap w))))
    (set_heap (heap w ++ [[]]) w).

(** What lines 127-128 evaluate: the decoded value, or the decoder's error. *)
Definition decoded (pipeline_parameters : option string) : json + string :=
  match pipeline_parameters with
  | Some s => json_loads s
  | None => inl empty_dict
  end.

(** Calling a handler on each function of a sequence in turn, keeping what
    each call returns. *)
Fixpoint call_all (h : callable) (funcs : list Func) : M (list Func) :=
  match funcs with
  | [] => mret []
  | func :: funcs' =>
      r ← call h func;
      rs ← call_all h funcs';
      mret (r :: rs)
  end.

(** ** The click command around [dsl_compile], and [main] *)

(** What the command line gives: [None] for an option that is absent, and
    for the flag whether it is present. *)
Record Argv := {
  arg_py : string;
  arg_output : string;
  arg_function : option string;
  arg_pipeline_parameters : option string;
  arg_disable_type_check : bool
}.

(** A [click.option] with [default=d]. *)
Definition click_option {A} (d : option A) (given : option A) : option A :=
  match given with
  | Some x => Some x
  | None => d
  end.

(** A [click.option] with [is_flag=True, default=d]: the flag, when present,
    yields the opposite of the default. *)
Definition click_flag (d : bool) (present : bool) : bool :=
  if present then negb d else d.

(** The callback as click invokes it once the options of lines 89-112 are
    resolved: every parameter is supplied from a declared option, so the
    defaults in the signature of [dsl_compile] are never used.  What click
    itself does around the callback (reading [KFP_*] environment variables,
    ending a standalone run with [SystemExit]) is not part of it. *)
Definition dsl_compile_command (a : Argv) : M unit :=
  dsl_compile (arg_py a) (arg_output a)
    (click_option None (arg_function a))
    (click_option None (arg_pipeline_parameters a))
    (click_flag false (arg_disable_type_check a)).

(** [main], over the command it runs. *)
Definition main (command : M unit) : M unit :=
  logging_basicConfig;;
  try_except command isinstance_Exception
    (λ e, click_echo (str_exn e) true;; sys_exit 1).

End compile_py.

(** ** [cli.py] *)

(** A click command object, as far as [cli] looks at it. *)
Record Command := { name : string }.

Class Commands := {
  run : Command;
  recurring_run : Command;
  experiment : Command;
  pipeline : Command;
  diagnose_me : Command;
  component : Command
}.

Section cli_py.
Context `{Ext : Externals}.

(** The command groups imported from the sibling modules. *)
Context `{Cmds : Commands}.

(** [COMMANDS['client']] and [COMMANDS['no_client']]; the sets are only
    iterated to collect names. *)
Definition COMMANDS_client : list Command := [run; recurring_run; experiment; pipeline].
Definition COMMANDS_no_client : list Command := [diagnose_me; component].

Definition PROGRAM_NAME : string := "kfp".

Definition SHELL_FILES : gmap string (list string) :=
  <["bash" := [".bashrc"]]>
  (<["zsh" := [".zshrc"]]>
  (<["fish" := [".config"; "fish"; "completions"; PROGRAM_NAME +:+ ".fish"]]> ∅)).

(** [str.upper] on ASCII letters. *)
Definition upper_ascii (c : Ascii.ascii) : Ascii.ascii :=
  let n := Ascii.nat_of_ascii c in
  if bool_decide (97 ≤ n ≤ 122)%nat then Ascii.ascii_of_nat (n - 32) else c.
Fixpoint str_upper (s : string) : string :=
  match s with
  | EmptyString => EmptyString
  | String c s' => String (upper_ascii c) (str_upper s')
  end.

Definition newline : string := String (Ascii.ascii_of_nat 10) EmptyString.

Definition _create_completion (shell : string) : string :=
  "eval " +:+ dquote +:+ "$(_" +:+ str_upper PROGRAM_NAME +:+ "_COMPLETE=" +:+ shell
  +:+ "_source " +:+ PROGRAM_NAME +:+ ")" +:+ dquote.

(** [with open(source_file, 'a') as f: f.write(text)].  When the file cannot
    be opened the error of [open] is raised and nothing is written. *)
Definition append_to_file (source_file text : string) : M unit :=
  match open_append source_file with
  | Some e => raise e
  | None => modify (emit (EvFileAppend source_file text))
  end.

Definition _install_completion (shell : string) : M unit :=
  let completion_statement := _create_completion shell in
  match SHELL_FILES !! shell with
  | None => raise (KeyError (repr_str shell))
  | Some parts =>
      let source_file := os_path_join (os_path_expanduser "~") parts in
      append_to_file source_file (newline +:+ completion_statement +:+ newline)
  end.

(** Values stored in the dictionary [ctx.obj]. *)
Inductive obj_value :=
| VClient (c : ClientArgs)   (* the Client built from these arguments *)
| VStr (s : string).

(** A [click.Context], as far as [cli] uses it. *)
Record Context := {
  invoked_subcommand : option string;
  obj : gmap string obj_value
}.

(** [ctx.obj[k] = v] *)
Definition obj_setitem (k : string) (v : obj_value) (ctx : Context) : Context :=
  {| invoked_subcommand := invoked_subcommand ctx; obj := <[k := v]> (obj ctx) |}.

(** [Client(endpoint, iap_client_id, namespace, other_client_id, other_client_secret)] *)
Definition Client (a : ClientArgs) : M obj_value :=
  modify (emit (EvClient a));;
  match Client_init a with
  | None => mret (VClient a)
  | Some e => raise e
  end.

(** Lines 108-112: every client command name and its plural. *)
Definition client_commands : gset string :=
  list_to_set (concat ((λ command, [name command; name command +:+ "s"]) <$> COMMANDS_client)).

(** [x in client_commands] for an [Optional[str]] *)
Definition is_client_command (x : option string) : bool :=
  match x with
  | Some s => bool_decide (s ∈ client_commands)
  | None => false
  end.

(** The group callback.  It returns the context it was given, with the items
    it has stored in [ctx.obj]; the subcommand, if any, runs afterwards on
    that context. *)
Definition cli (ctx : Context) (endpoint iap_client_id : option string)
    (namespace : string) (other_client_id other_client_secret : option string)
    (output : string) (show_completion install_completion : option string) : M Context :=
  if truthy show_completion then
    click_echo (_create_completion (default "" show_completion)) false;;
    mret ctx
  else if truthy install_completion then
    _install_completion (default "" install_completion);;
    mret ctx
  else if negb (is_client_command (invoked_subcommand ctx)) then
    (* Do not create a client for these subcommands *)
    mret ctx
  else
    client ← Client {| host := endpoint; client_id := iap_client_id;
                       client_namespace := namespace;
                       client_other_client_id := other_client_id;
                       client_other_client_secret := other_client_secret |};
    let ctx := obj_setitem "client" client ctx in
    let ctx := obj_setitem "namespace" (VStr namespace) ctx in
    let ctx := obj_setitem "output" (VStr output) ctx in
    mret ctx.

End cli_py.

(** ** A sample environment

    POSIX [os.path], and a small table of files, used to run the definitions
    on concrete command lines. *)
Module sample.

Fixpoint rpartition (c : ascii) (s : string) : option (string * string) :=
  match s with
  | EmptyString => None
  | String a s' =>
      match rpartition c s' with
      | Some (b, t) => Some (String a b, t)
      | None => if Ascii.eqb a c then Some (EmptyString, s') else None
      end
  end.

Fixpoint all_are (c : ascii) (s : string) : bool :=
  match s with
  | EmptyString => true
  | String a s' => Ascii.eqb a c && all_are c s'
  end.

Fixpoint rstrip (c : ascii) (s : string) : string :=
  match s with
  | EmptyString => EmptyString
  | String a s' =>
      match rstrip c s' with
      | EmptyString => if Ascii.eqb a c then EmptyString else String a EmptyString
      | r => String a r
      end
  end.

Definition basename (p : string) : string :=
  match rpartition "/" p with
  | Some (_, t) => t
  | None => p
  end.

Definition dirname (p : string) : string :=
  match rpartition "/" p with
  | Some (b, _) =>
      let head := b +:+ "/" in
      if all_are "/" head then head else rstrip "/" head
  | None => ""
  end.

Definition splitext (p : string) : string * string :=
  let '(h, t) := match rpartition "/" p with
                 | Some (b, t) => (b +:+ "/", t)
                 | None => ("", p)
                 end in
  match rpartition "." t with
  | Some (root, ext) =>
      if all_are "." root then (p, "") else (h +:+ root, "." +:+ ext)
  | None => (p, "")
  end.

(** [os.path.join(a, *parts)] for relative [parts]. *)
Fixpoint join_path (a : string) (parts : list string) : string :=
  match parts with
  | [] => a
  | x :: parts' => join_path (a +:+ "/" +:+ x) parts'
  end.

(** [repr] of a string of letters, digits and underscores. *)
Definition repr (s : string) : string := "'" +:+ s +:+ "'".

(** [json.loads] on the few texts used below; any other text is reported
    as not starting a JSON value. *)
Definition loads (s : string) : json + string :=
  if String.eqb s "{}" then inl (JDict ∅)
  else if String.eqb s "[]" then inl (JList [])
  else if String.eqb s "null" then inl JNull
  else if String.eqb s "{"
  then inr "Expecting property name enclosed in double quotes: line 1 column 2 (char 1)"
  else inr "Expecting value: line 1 column 1 (char 0)".

Definition train : Func := {| __name__ := "train"; func_id := 1 |}.
Definition evaluate : Func := {| __name__ := "evaluate"; func_id := 2 |}.
Definition train_again : Func := {| __name__ := "train"; func_id := 3 |}.

(** The files on disk, by module name. *)
Definition code (name : string) (path : list string) : list stmt :=
  if String.eqb name "one" then [Decorate train]
  else if String.eqb name "two" then [Decorate train; Decorate evaluate]
  else if String.eqb name "three" then [Decorate evaluate; Decorate train; Decorate train_again]
  else if String.eqb name "empty" then []
  else if String.eqb name "two_then_fails"
  then [Decorate train; Decorate evaluate; RaiseStmt (OtherException "RuntimeError" "boom")]
  else if String.eqb name "exits" then [RaiseStmt (SystemExit 1)]
  else if String.eqb name "path_hack" then [AssignSysPath ["/opt/lib"]; Decorate train]
  else [RaiseStmt (ImportError ("No module named " +:+ repr name))].

Definition env : Externals :=
  {| os_path_dirname := dirname;
     os_path_basename := basename;
     os_path_splitext := splitext;
     json_loads := loads;
     repr_str := repr;
     module_code := code;
     Compiler_compile := λ _, None;
     Client_init := λ _, None;
     os_path_expanduser := λ p, if String.eqb p "~" then "/root" else p;
     os_path_join := join_path;
     open_append := λ p,
       if String.eqb p "/root/.config/fish/completions/kfp.fish"
       then Some (OtherException "FileNotFoundError"
              "[Errno 2] No such file or directory: '/root/.config/fish/completions/kfp.fish'")
       else None |}.

(** A fresh interpreter: nothing on the path but the standard library, no
    handler installed. *)
Definition w0 : World :=
  {| sys_path := ["/usr/lib/python3"]; pipeline_decorator_handler := None;
     heap := []; trace := [] |}.

Definition argv (py : string) (function pipeline_parameters : option string)
    (disable_type_check : bool) : Argv :=
  {| arg_py := py; arg_output := "out.json"; arg_function := function;
     arg_pipeline_parameters := pipeline_parameters;
     arg_disable_type_check := disable_type_check |}.

(** The names click gives the six command groups. *)
Definition commands : Commands :=
  {| run := {| name := "run" |};
     recurring_run := {| name := "recurring-run" |};
     experiment := {| name := "experiment" |};
     pipeline := {| name := "pipeline" |};
     diagnose_me := {| name := "diagnose-me" |};
     component := {| name := "component" |} |}.

(** The context click hands to [cli] when [kfp] is started with [obj={}]. *)
Definition ctx0 (subcommand : option string) : Context :=
  {| invoked_subcommand := subcommand; obj := ∅ |}.

End sample.

(** ** Further observations *)


Definition assigns_handler (s : stmt) : bool :=
  match s with AssignHandler _ => true | _ => false end.

(** A statement that raises nothing but instances of [Exception]. *)
Definition raises_Exception_only (s : stmt) : bool :=
  match s with RaiseStmt e => isinstance_Exception e | _ => true end.

(** The functions a file decorates before its first [raise], in the order of
    the file. *)
Fixpoint decorated (m : list stmt) : list Func :=
  match m with
  | [] => []
  | Decorate f :: m' => f :: decorated m'
  | RaiseStmt _ :: _ => []
  | _ :: m' => decorated m'
  end.

(** Hand each function of a sequence to whatever handler is installed. *)
Definition register_all (funcs : list Func) : M (list Func) :=
  w ← get;
  match pipeline_decorator_handler w with
  | Some h => call_all h funcs
  | None => mret funcs
  end.

(** One collector opened inside another:
<<
    with PipelineCollectorContext() as outer:
        <register before>
        with PipelineCollectorContext() as inner:
            <register during>
        <register after>
>> *)
Definition nested_collectors (before during after : list Func) : M (loc * loc) :=
  with_as PipelineCollectorContext_new __enter__ __exit__ (λ outer,
    register_all before;;
    inner ← with_as PipelineCollectorContext_new __enter__ __exit__ (λ inner,
      register_all during;;
      mret inner);
    register_all after;;
    mret (outer, inner)).

(** The sample environment with two more files: one that empties [sys.path]
    and one that interrupts the import. *)
Module more_files.

Definition code (name : string) (path : list string) : list stmt :=
  if String.eqb name "wipes_path" then [AssignSysPath []; Decorate sample.train]
  else if String.eqb name "interrupted" then [Decorate sample.train; RaiseStmt KeyboardInterrupt]
  else sample.code name path.

Definition env : Externals :=
  {| os_path_dirname := sample.dirname;
     os_path_basename := sample.basename;
     os_path_splitext := sample.splitext;
     json_loads := sample.loads;
     repr_str := sample.repr;
     module_code := code;
     Compiler_compile := λ _, None;
     Client_init := λ _, None;
     os_path_expanduser := λ p, if String.eqb p "~" then "/root" else p;
     os_path_join := sample.join_path;
     open_append := λ _, None |}.

End more_files.

(** * Properties *)

Ltac run :=
  unfold mbind, mret, M_bind, M_ret, modify, get, raise, sys_exit in *; simpl in *.

Section monad_facts.

Lemma bind_ret {A B} (c : M A) (k : A → M B) w w' a :
  c w = (w', Ret a) → (c ≫= k) w = k a w'.
Proof. intros H. run. by rewrite H. Qed.

Lemma bind_raise {A B} (c : M A) (k : A → M B) w w' e :
  c w = (w', Raise e) → (c ≫= k) w = (w', Raise e).
Proof. intros H. run. by rewrite H. Qed.

Lemma compile_calls_app t1 t2 :
  compile_calls (t1 ++ t2) = compile_calls t1 ++ compile_calls t2.
Proof. apply omap_app. Qed.

End monad_facts.

Section compile_py_facts.
Context `{Ext : Externals}.

(** *** The imported file *)

Lemma exec_stmt_trace s w : trace (exec_stmt s w).1 = trace w.
Proof.
  destruct s as [f|h|p|e]; simpl; try done.
  unfold decorate. run.
  destruct (pipeline_decorator_handler w) as [[l]|]; simpl; [|done].
  unfold add_pipeline, list_append. run.
  by destruct (heap w !! l).
Qed.

Lemma exec_trace m w : trace (exec m w).1 = trace w.
Proof.
  revert w. induction m as [|s m IH]; intros w; [done|].
  simpl. run. pose proof (exec_stmt_trace s w) as Hs.
  destruct (exec_stmt s w) as [w' [[]|e]]; simpl in *; [|done].
  by rewrite IH.
Qed.

Lemma exec_stmt_sys_path s w :
  assigns_sys_path s = false → sys_path (exec_stmt s w).1 = sys_path w.
Proof.
  destruct s as [f|h|p|e]; simpl; try done.
  intros _. unfold decorate. run.
  destruct (pipeline_decorator_handler w) as [[l]|]; simpl; [|done].
  unfold add_pipeline, list_append. run.
  by destruct (heap w !! l).
Qed.

Lemma exec_sys_path m w :
  forallb (λ s, negb (assigns_sys_path s)) m = true →
  sys_path (exec m w).1 = sys_path w.
Proof.
  revert w. induction m as [|s m IH]; intros w Hm; [done|].
  simpl in Hm. apply andb_prop in Hm as [Hs Hm].
  apply negb_true_iff in Hs.
  simpl. run. pose proof (exec_stmt_sys_path s w Hs) as Hw.
  destruct (exec_stmt s w) as [w' [[]|e]]; simpl in *; [|done].
  by rewrite IH.
Qed.

(** A file that consists of decorated functions hands each of them to the
    installed collector, in the order of the file. *)
Lemma exec_decorations l fs : ∀ acc w,
  pipeline_decorator_handler w = Some (add_pipeline_closure l) →
  heap w !! l = Some acc →
  exec (Decorate <$> fs) w = (set_heap (<[l := acc ++ fs]> (heap w)) w, Ret tt).
Proof.
  induction fs as [|f fs IH]; intros acc w Hh Hl.
  - simpl. rewrite app_nil_r, list_insert_id by done. by destruct w.
  - assert (Hf : exec_stmt (Decorate f) w
                 = (set_heap (<[l := acc ++ [f]]> (heap w)) w, Ret tt)).
    { simpl. unfold decorate. run. rewrite Hh. simpl.
      unfold add_pipeline, list_append. run. by rewrite Hl. }
    change (exec (Decorate <$> f :: fs)) with
      (exec_stmt (Decorate f) ≫= λ _, exec (Decorate <$> fs)).
    erewrite bind_ret by exact Hf.
    rewrite (IH (acc ++ [f])).
    + simpl. by rewrite list_insert_insert_eq, <- app_assoc.
    + done.
    + simpl. apply list_lookup_insert_eq. by eapply lookup_lt_Some.
Qed.

(** *** The [with] block *)

Lemma __enter___run self w :
  __enter__ self w =
  (entered w,
   Ret ({| old_handler := Some (pipeline_decorator_handler w) |}, length (heap w))).
Proof. done. Qed.

Lemma collect_pipelines_run filename w :
  let name := (os_path_splitext filename).1 in
  ∃ w2 r,
    exec (module_code name (sys_path w)) (emit (EvImport name (sys_path w)) (entered w))
      = (w2, r) ∧
    collect_pipelines filename w =
      (set_handler (pipeline_decorator_handler w) w2,
       match r with Ret _ => Ret (length (heap w)) | Raise e => Raise e end).
Proof.
  intros name. unfold collect_pipelines, with_as, __import__. run.
  fold name. destruct (exec _ _) as [w2 [[]|e]] eqn:He; eauto.
Qed.

Lemma collect_pipelines_handler filename w :
  pipeline_decorator_handler (collect_pipelines filename w).1
  = pipeline_decorator_handler w.
Proof.
  destruct (collect_pipelines_run filename w) as (w2 & r & _ & ->). done.
Qed.

Lemma collect_pipelines_trace filename w :
  trace (collect_pipelines filename w).1
  = trace w ++ [EvImport (os_path_splitext filename).1 (sys_path w)].
Proof.
  destruct (collect_pipelines_run filename w) as (w2 & r & He & ->). simpl.
  pose proof (exec_trace (module_code (os_path_splitext filename).1 (sys_path w))
    (emit (EvImport (os_path_splitext filename).1 (sys_path w)) (entered w))) as Ht.
  rewrite He in Ht. done.
Qed.

Lemma collect_pipelines_sys_path filename w :
  forallb (λ s, negb (assigns_sys_path s))
    (module_code (os_path_splitext filename).1 (sys_path w)) = true →
  sys_path (collect_pipelines filename w).1 = sys_path w.
Proof.
  intros Hm. destruct (collect_pipelines_run filename w) as (w2 & r & He & ->). simpl.
  pose proof (exec_sys_path _ (emit (EvImport (os_path_splitext filename).1 (sys_path w))
    (entered w)) Hm) as Hp.
  rewrite He in Hp. done.
Qed.

(** *** Decoding the parameters *)

Lemma parse_parameters_run pp w :
  parse_parameters pp w =
  match decoded pp with
  | inl v => (w, Ret v)
  | inr msg => (emit (EvLoggingError (parse_failure_msg pp)) w, Raise (JSONDecodeError msg))
  end.
Proof.
  unfold parse_parameters, try_except, decoded, json_loads_call, logging_error.
  destruct pp as [s|]; [|done]. by destruct (json_loads s).
Qed.

(** *** [_compile_pipeline_function] *)

Lemma Compiler_compile_call_run c w :
  Compiler_compile_call c w =
  (emit (EvCompile c) w,
   match Compiler_compile c with None => Ret tt | Some e => Raise e end).
Proof. unfold Compiler_compile_call. run. by destruct (Compiler_compile c). Qed.

(** Whatever the arguments, the call either raises before reaching the
    compiler or makes exactly one [compile] call with the parameters and the
    flag it was given. *)
Lemma _compile_pipeline_function_cases fs fn pp out tc w :
  (∃ e, _compile_pipeline_function fs fn pp out tc w = (w, Raise e)) ∨
  (∃ f, f ∈ fs ∧
     _compile_pipeline_function fs fn pp out tc w =
     Compiler_compile_call {| pipeline_func := f; pipeline_parameters := pp;
                              package_path := out; type_check := tc |} w).
Proof.
  unfold _compile_pipeline_function.
  case_bool_decide; [left; eauto|].
  destruct (bool_decide (1 < length fs) && negb (truthy fn)); [left; eauto|].
  destruct (truthy fn).
  - unfold next_named. destruct (find _ fs) as [f|] eqn:Hf; [|left; eauto].
    right. exists f. split; [|done].
    apply find_some in Hf as [Hin _]. by apply list_elem_of_In.
  - destruct fs as [|f fs]; [done|]. right. exists f. split; [left|done].
Qed.

(** *** [dsl_compile] as import, then the rest, then the [finally] *)

Lemma del_sys_path_run w :
  del_sys_path 0 w =
  match sys_path w with
  | [] => (w, Raise (IndexError "list assignment index out of range"))
  | _ :: p => (set_sys_path p w, Ret tt)
  end.
Proof.
  unfold del_sys_path. run. by destruct (sys_path w).
Qed.

Lemma dsl_compile_run py out fn pp d w :
  dsl_compile py out fn pp d w =
  let '(w2, r) := imported py w in
  try_finally
    (match r with
     | Raise e => raise e
     | Ret fs =>
         parsed ← parse_parameters pp;
         _compile_pipeline_function fs fn (Some parsed) out (negb d)
     end)
    (del_sys_path 0) w2.
Proof.
  unfold dsl_compile, dsl_compile_try, imported, try_finally, list_items. run.
  destruct (collect_pipelines _ _) as [w2 [l|e]]; simpl; [|done].
  rewrite parse_parameters_run. by destruct (decoded pp).
Qed.

Lemma imported_run py w :
  imported py w =
  let w1 := set_sys_path (os_path_dirname py :: sys_path w) w in
  let '(w2, r) := collect_pipelines (os_path_basename py) w1 in
  (w2, match r with Ret l => Ret (default [] (heap w2 !! l)) | Raise e => Raise e end).
Proof.
  unfold imported, sys_path_insert, list_items. run. rewrite drop_0.
  by destruct (collect_pipelines _ _) as [w2 [l|e]].
Qed.

Lemma imported_handler py w :
  pipeline_decorator_handler (imported py w).1 = pipeline_decorator_handler w.
Proof.
  rewrite imported_run. simpl.
  pose proof (collect_pipelines_handler (os_path_basename py)
    (set_sys_path (os_path_dirname py :: sys_path w) w)) as H.
  by destruct (collect_pipelines _ _) as [w2 [l|e]].
Qed.

Lemma imported_trace py w :
  trace (imported py w).1 =
  trace w ++ [EvImport (os_path_splitext (os_path_basename py)).1
                (os_path_dirname py :: sys_path w)].
Proof.
  rewrite imported_run. simpl.
  pose proof (collect_pipelines_trace (os_path_basename py)
    (set_sys_path (os_path_dirname py :: sys_path w) w)) as H.
  by destruct (collect_pipelines _ _) as [w2 [l|e]].
Qed.

Lemma imported_sys_path py w :
  forallb (λ s, negb (assigns_sys_path s))
    (module_code (os_path_splitext (os_path_basename py)).1
       (os_path_dirname py :: sys_path w)) = true →
  sys_path (imported py w).1 = os_path_dirname py :: sys_path w.
Proof.
  intros Hm. rewrite imported_run. simpl.
  pose proof (collect_pipelines_sys_path (os_path_basename py)
    (set_sys_path (os_path_dirname py :: sys_path w) w) Hm) as H.
  by destruct (collect_pipelines _ _) as [w2 [l|e]].
Qed.

(** What "the imported file registers [fs]" amounts to for a file made of
    decorated functions only. *)
Lemma imported_decorations py w fs :
  module_code (os_path_splitext (os_path_basename py)).1
    (os_path_dirname py :: sys_path w) = Decorate <$> fs →
  (imported py w).2 = Ret fs.
Proof.
  intros Hm. rewrite imported_run. simpl.
  set (w1 := set_sys_path (os_path_dirname py :: sys_path w) w).
  destruct (collect_pipelines_run (os_path_basename py) w1) as (w2 & r & He & ->).
  change (sys_path w1) with (os_path_dirname py :: sys_path w) in He.
  rewrite Hm in He.
  erewrite (exec_decorations (length (heap w)) fs []) in He.
  - injection He as <- <-. simpl.
    rewrite list_lookup_insert_eq; [done|]. rewrite length_app. simpl. lia.
  - done.
  - simpl. by rewrite lookup_app_r, Nat.sub_diag.
Qed.

(** The part of [dsl_compile] after the import touches neither [sys.path]
    nor the handler before the [finally], and makes at most one [compile]
    call. *)
Lemma after_import_cases fs fn pp out tc w :
  let c := (parsed ← parse_parameters pp;
            _compile_pipeline_function fs fn (Some parsed) out tc) in
  sys_path (c w).1 = sys_path w ∧
  pipeline_decorator_handler (c w).1 = pipeline_decorator_handler w ∧
  (compile_calls (trace (c w).1) = compile_calls (trace w) ∧ (∃ e, (c w).2 = Raise e)
   ∨ ∃ f v, f ∈ fs ∧ decoded pp = inl v ∧
       trace (c w).1 = trace w ++
         [EvCompile {| pipeline_func := f; pipeline_parameters := Some v;
                       package_path := out; type_check := tc |}]).
Proof.
  intros c. unfold c. run. rewrite parse_parameters_run.
  destruct (decoded pp) as [v|msg]; simpl.
  - destruct (_compile_pipeline_function_cases fs fn (Some v) out tc w)
      as [[e ->]|(f & Hf & ->)]; simpl; [eauto 10|].
    rewrite Compiler_compile_call_run. simpl. eauto 10.
  - split_and!; [done..|]. left. split; [|eauto].
    by rewrite compile_calls_app, app_nil_r.
Qed.

Lemma try_finally_del {A} (c : M A) w :
  try_finally c (del_sys_path 0) w =
  match sys_path (c w).1 with
  | [] => ((c w).1, Raise (IndexError "list assignment index out of range"))
  | _ :: p => (set_sys_path p (c w).1, (c w).2)
  end.
Proof.
  unfold try_finally. destruct (c w) as [w1 r]. rewrite del_sys_path_run. simpl.
  by destruct (sys_path w1).
Qed.

Lemma try_finally_del_trace {A} (c : M A) w :
  trace (try_finally c (del_sys_path 0) w).1 = trace (c w).1.
Proof. rewrite try_finally_del. by destruct (sys_path (c w).1). Qed.

Lemma try_finally_del_handler {A} (c : M A) w :
  pipeline_decorator_handler (try_finally c (del_sys_path 0) w).1
  = pipeline_decorator_handler (c w).1.
Proof. rewrite try_finally_del. by destruct (sys_path (c w).1). Qed.

Lemma try_finally_del_sys_path {A} (c : M A) w :
  sys_path (try_finally c (del_sys_path 0) w).1 = drop 1 (sys_path (c w).1).
Proof.
  rewrite try_finally_del. destruct (sys_path (c w).1) eqn:Hp; simpl; [|done].
  by rewrite Hp.
Qed.

Lemma try_finally_del_outcome {A} (c : M A) w :
  sys_path (c w).1 ≠ [] → (try_finally c (del_sys_path 0) w).2 = (c w).2.
Proof. intros Hp. rewrite try_finally_del. by destruct (sys_path (c w).1). Qed.

Lemma click_flag_false present : click_flag false present = present.
Proof. by destruct present. Qed.

Lemma click_option_None {A} (given : option A) : click_option None given = given.
Proof. by destruct given. Qed.

Lemma dsl_compile_command_run a w :
  dsl_compile_command a w =
  dsl_compile (arg_py a) (arg_output a) (arg_function a) (arg_pipeline_parameters a)
    (arg_disable_type_check a) w.
Proof.
  unfold dsl_compile_command. by rewrite !click_option_None, click_flag_false.
Qed.

(** *** The two guards at the top of [_compile_pipeline_function] *)

Lemma _compile_pipeline_function_empty fn pp out tc w :
  _compile_pipeline_function [] fn pp out tc w = (w, Raise (ValueError no_pipeline_msg)).
Proof. done. Qed.

Lemma _compile_pipeline_function_ambiguous fs fn pp out tc w :
  1 < length fs → truthy fn = false →
  _compile_pipeline_function fs fn pp out tc w
  = (w, Raise (ValueError (multiple_pipelines_msg (__name__ <$> fs)))).
Proof.
  intros Hlen Hfn. unfold _compile_pipeline_function.
  rewrite bool_decide_eq_false_2 by lia.
  by rewrite bool_decide_eq_true_2, Hfn by done.
Qed.

(** C1, amended.  When the import returns normally having collected more
    than one pipeline function and [--function] is not given, no [compile]
    call is made; and when moreover [--pipeline-parameters] is omitted or
    decodes, [_compile_pipeline_function] is reached and raises the
    [ValueError] that lists the candidate names and asks for [--function],
    which is what [dsl_compile] raises once [del sys.path[0]] has run. *)
Theorem C1_ambiguous_pipeline (a : Argv) (w w2 : World) (fs : list Func) :
  imported (arg_py a) w = (w2, Ret fs) →
  1 < length fs →
  arg_function a = None →
  compile_calls (trace (dsl_compile_command a w).1) = compile_calls (trace w) ∧
  ∀ v, decoded (arg_pipeline_parameters a) = inl v →
    _compile_pipeline_function fs (arg_function a) (Some v) (arg_output a)
      (negb (arg_disable_type_check a)) w2
    = (w2, Raise (ValueError (multiple_pipelines_msg (__name__ <$> fs)))) ∧
    (sys_path w2 ≠ [] →
     (dsl_compile_command a w).2
     = Raise (ValueError (multiple_pipelines_msg (__name__ <$> fs)))).
Proof.
  intros Himp Hlen Hfn.
  pose proof (imported_trace (arg_py a) w) as Ht. rewrite Himp in Ht. simpl in Ht.
  rewrite dsl_compile_command_run, dsl_compile_run, Himp. rewrite Hfn.
  split.
  - rewrite try_finally_del_trace. run. rewrite parse_parameters_run.
    destruct (decoded _) as [v|msg]; simpl.
    + rewrite _compile_pipeline_function_ambiguous by done. simpl.
      by rewrite Ht, compile_calls_app, app_nil_r.
    + by rewrite Ht, !compile_calls_app, !app_nil_r.
  - intros v Hv. split; [by apply _compile_pipeline_function_ambiguous|].
    intros Hp. rewrite try_finally_del_outcome; run; rewrite parse_parameters_run, Hv;
      simpl; by rewrite _compile_pipeline_function_ambiguous.
Qed.

(** C2, amended.  When the import returns normally having collected no
    pipeline function, no [compile] call is made; and when moreover
    [--pipeline-parameters] is omitted or decodes,
    [_compile_pipeline_function] is reached and raises the [ValueError] that
    asks for a decorated function, which is what [dsl_compile] raises once
    [del sys.path[0]] has run. *)
Theorem C2_missing_pipeline (a : Argv) (w w2 : World) :
  imported (arg_py a) w = (w2, Ret []) →
  compile_calls (trace (dsl_compile_command a w).1) = compile_calls (trace w) ∧
  ∀ v, decoded (arg_pipeline_parameters a) = inl v →
    _compile_pipeline_function [] (arg_function a) (Some v) (arg_output a)
      (negb (arg_disable_type_check a)) w2
    = (w2, Raise (ValueError no_pipeline_msg)) ∧
    (sys_path w2 ≠ [] →
     (dsl_compile_command a w).2 = Raise (ValueError no_pipeline_msg)).
Proof.
  intros Himp.
  pose proof (imported_trace (arg_py a) w) as Ht. rewrite Himp in Ht. simpl in Ht.
  rewrite dsl_compile_command_run, dsl_compile_run, Himp.
  split.
  - rewrite try_finally_del_trace. run. rewrite parse_parameters_run.
    destruct (decoded _) as [v|msg]; simpl.
    + by rewrite Ht, compile_calls_app, app_nil_r.
    + by rewrite Ht, !compile_calls_app, !app_nil_r.
  - intros v Hv. split; [done|].
    intros Hp. rewrite try_finally_del_outcome; run; by rewrite parse_parameters_run, Hv.
Qed.

(** C4, amended.  When the import returns normally and
    [--pipeline-parameters] is given but does not decode, the failure is
    logged right after the import, no [compile] call is made, and the
    [JSONDecodeError] of [json.loads] is what [dsl_compile] raises once
    [del sys.path[0]] has run. *)
Theorem C4_malformed_parameters (a : Argv) (w w2 : World) (fs : list Func)
    (s msg : string) :
  imported (arg_py a) w = (w2, Ret fs) →
  arg_pipeline_parameters a = Some s →
  json_loads s = inr msg →
  trace (dsl_compile_command a w).1
    = trace w2 ++ [EvLoggingError ("Failed to parse --pipeline-parameters argument: " +:+ s)] ∧
  compile_calls (trace (dsl_compile_command a w).1) = compile_calls (trace w) ∧
  (sys_path w2 ≠ [] → (dsl_compile_command a w).2 = Raise (JSONDecodeError msg)).
Proof.
  intros Himp Hpp Hs.
  pose proof (imported_trace (arg_py a) w) as Ht. rewrite Himp in Ht. simpl in Ht.
  rewrite dsl_compile_command_run, dsl_compile_run, Himp, Hpp.
  assert (Hrun : (parse_parameters (Some s) ≫= λ parsed,
              _compile_pipeline_function fs (arg_function a) (Some parsed) (arg_output a)
                (negb (arg_disable_type_check a))) w2
          = (emit (EvLoggingError (parse_failure_msg (Some s))) w2,
             Raise (JSONDecodeError msg))).
  { run. rewrite parse_parameters_run. simpl. by rewrite Hs. }
  split_and!.
  - by rewrite try_finally_del_trace, Hrun.
  - rewrite try_finally_del_trace, Hrun. simpl.
    by rewrite Ht, !compile_calls_app, !app_nil_r.
  - intros Hp. rewrite try_finally_del_outcome; by rewrite Hrun.
Qed.

(** Which function [_compile_pipeline_function] hands to the compiler, if
    any: the first one bearing a non-empty [function_name], or the only one
    when [function_name] is absent or empty. *)
Lemma _compile_pipeline_function_selects fs fn pp out tc w :
  (∃ f, (truthy fn = true ∧ next_named fs (default "" fn) = Some f
         ∨ truthy fn = false ∧ fs = [f]) ∧
        _compile_pipeline_function fs fn pp out tc w
        = Compiler_compile_call {| pipeline_func := f; pipeline_parameters := pp;
                                   package_path := out; type_check := tc |} w)
  ∨ ((∀ f, ¬ (truthy fn = true ∧ next_named fs (default "" fn) = Some f
              ∨ truthy fn = false ∧ fs = [f])) ∧
     ∃ msg, _compile_pipeline_function fs fn pp out tc w = (w, Raise (ValueError msg))).
Proof.
  unfold _compile_pipeline_function.
  case_bool_decide as Hlen.
  { right. split; [|by eexists]. destruct fs; [|done].
    intros f [[_ Hf]|[_ Hf]]; done. }
  destruct (truthy fn) eqn:Hfn.
  - rewrite andb_false_r.
    destruct (next_named fs (default "" fn)) as [f|] eqn:Hf.
    + left. exists f. split; [by left|done].
    + right. split; [|by eexists]. intros f [[_ ?]|[? _]]; done.
  - rewrite andb_true_r. case_bool_decide as Hmany.
    + right. split; [|by eexists]. intros f [[? _]|[_ ->]]; [done|]. simpl in Hmany. lia.
    + left. destruct fs as [|f [|g fs]]; [done| |simpl in Hmany; lia].
      exists f. split; [by right|done].
Qed.

(** C9, amended.  With [--pipeline-parameters] omitted: when the import
    returns normally and [_compile_pipeline_function] selects a function
    (the first one bearing a non-empty [--function], or the only one when
    [--function] is absent or empty), [dsl_compile] makes exactly one
    [compile] call, for that function, with [pipeline_parameters] equal to
    the empty dictionary (not [None]), the [--output] path, and [type_check]
    equal to the negation of the [--disable-type-check] flag, which is false
    when the flag is absent, so that type checking is then on.  In every
    other run with the option omitted no [compile] call is made. *)
Theorem C9_compile_call_arguments (a : Argv) (w : World) :
  arg_pipeline_parameters a = None →
  let r := dsl_compile_command a w in
  let selects fs f :=
    truthy (arg_function a) = true ∧
      next_named fs (default "" (arg_function a)) = Some f
    ∨ truthy (arg_function a) = false ∧ fs = [f] in
  (∀ w2 fs f, imported (arg_py a) w = (w2, Ret fs) → selects fs f →
     ∃ call,
       compile_calls (trace r.1) = compile_calls (trace w) ++ [call] ∧
       pipeline_func call = f ∧
       pipeline_parameters call = Some empty_dict ∧
       pipeline_parameters call ≠ None ∧
       package_path call = arg_output a ∧
       type_check call = negb (click_flag false (arg_disable_type_check a)) ∧
       (arg_disable_type_check a = false → type_check call = true)) ∧
  ((∀ w2 fs f, imported (arg_py a) w = (w2, Ret fs) → ¬ selects fs f) →
   compile_calls (trace r.1) = compile_calls (trace w)).
Proof.
  intros Hpp r selects. unfold r.
  pose proof (imported_trace (arg_py a) w) as Ht.
  rewrite dsl_compile_command_run, dsl_compile_run, Hpp, click_flag_false.
  destruct (imported (arg_py a) w) as [w2 [fs|e]]; simpl in Ht;
    rewrite try_finally_del_trace.
  - assert (Hrun : (parse_parameters None ≫= λ parsed,
        _compile_pipeline_function fs (arg_function a) (Some parsed) (arg_output a)
          (negb (arg_disable_type_check a))) w2
      = _compile_pipeline_function fs (arg_function a) (Some empty_dict) (arg_output a)
          (negb (arg_disable_type_check a)) w2) by done.
    rewrite Hrun.
    destruct (_compile_pipeline_function_selects fs (arg_function a) (Some empty_dict)
      (arg_output a) (negb (arg_disable_type_check a)) w2)
      as [(f & Hsel & ->)|(Hnone & msg & ->)].
    + rewrite Compiler_compile_call_run. simpl.
      rewrite Ht, !compile_calls_app. simpl. rewrite app_nil_r. split.
      * intros w2' fs' f' [= <- <-] Hsel'.
        assert (f' = f) as ->.
        { destruct Hsel as [[Ht1 Hf]|[Ht1 Hf]], Hsel' as [[Ht2 Hf']|[Ht2 Hf']];
            congruence. }
        eexists. split; [done|]. simpl. split_and!; [done..|]. by intros ->.
      * intros Hno. by destruct (Hno w2 fs f eq_refl).
    + simpl. rewrite Ht, compile_calls_app. simpl. rewrite app_nil_r. split; [|done].
      intros w2' fs' f' [= <- <-] Hsel'. by destruct (Hnone f').
  - simpl. rewrite Ht, compile_calls_app. simpl. rewrite app_nil_r. split; [|done].
    intros w2' fs' f' [=].
Qed.

(** C10.  [dsl_compile] starts the import with [os.path.dirname(py)] at
    position 0 of [sys.path]; whatever the body of the [try] does, returning
    or raising, the first item of [sys.path] is then deleted; hence when the
    imported module does not assign [sys.path], the path after the call
    equals the path before it. *)
Theorem C10_sys_path_restored (py output : string) (function_name pp : option string)
    (disable_type_check : bool) (w : World) :
  let name := (os_path_splitext (os_path_basename py)).1 in
  let w1 := set_sys_path (os_path_dirname py :: sys_path w) w in
  let w' := (dsl_compile py output function_name pp disable_type_check w).1 in
  (sys_path_insert 0 (os_path_dirname py) w = (w1, Ret tt) ∧
   ∃ evs, trace w' = trace w ++ EvImport name (os_path_dirname py :: sys_path w) :: evs) ∧
  sys_path w' =
    drop 1 (sys_path (dsl_compile_try py output function_name pp disable_type_check w1).1) ∧
  (forallb (λ s, negb (assigns_sys_path s))
     (module_code name (os_path_dirname py :: sys_path w)) = true →
   sys_path w' = sys_path w).
Proof.
  intros name w1 w'.
  assert (Hins : sys_path_insert 0 (os_path_dirname py) w = (w1, Ret tt)).
  { unfold sys_path_insert. run. by rewrite drop_0. }
  pose proof (imported_trace py w) as Ht.
  split_and!.
  - done.
  - unfold w'. rewrite dsl_compile_run.
    destruct (imported py w) as [w2 [fs|e]]; simpl in Ht; rewrite try_finally_del_trace.
    + destruct (after_import_cases fs function_name pp output (negb disable_type_check) w2)
        as (_ & _ & [[_ [e He]]|(f & v & _ & _ & Hc)]).
      * run. rewrite parse_parameters_run in *.
        destruct (decoded pp) as [v|msg]; simpl in *.
        -- destruct (_compile_pipeline_function_cases fs function_name (Some v) output
             (negb disable_type_check) w2) as [[e' ->]|(f & _ & Hf)]; simpl.
           ++ rewrite Ht. by exists [].
           ++ rewrite Hf, Compiler_compile_call_run. simpl. rewrite Ht, <- app_assoc.
              by eexists [_].
        -- rewrite Ht, <- app_assoc. by eexists [_].
      * rewrite Hc, Ht, <- app_assoc. by eexists [_].
    + simpl. rewrite Ht. by exists [].
  - unfold w', dsl_compile. erewrite bind_ret by exact Hins.
    apply try_finally_del_sys_path.
  - intros Hm. pose proof (imported_sys_path py w Hm) as Hp.
    unfold w'. rewrite dsl_compile_run.
    destruct (imported py w) as [w2 [fs|e]]; simpl in Hp; rewrite try_finally_del_sys_path.
    + destruct (after_import_cases fs function_name pp output (negb disable_type_check) w2)
        as (-> & _). by rewrite Hp.
    + simpl. by rewrite Hp.
Qed.

(** C6.  [__enter__] stores the current handler in [old_handler] and installs
    the [add_pipeline] closure of its fresh list; [__exit__] puts the stored
    value back.  The module runs with the collector installed, and after the
    [with] block, also when the import raised, and after every run of
    [dsl_compile], the handler is the value it was before. *)
Theorem C6_handler_restored :
  (∀ self w, ∃ self' l w1,
     __enter__ self w = (w1, Ret (self', l)) ∧
     pipeline_decorator_handler w1 = Some (add_pipeline_closure l) ∧
     heap w1 !! l = Some [] ∧
     ∀ w2, __exit__ self' w2 = (set_handler (pipeline_decorator_handler w) w2, Ret tt)) ∧
  (∀ filename w,
     let name := (os_path_splitext filename).1 in
     ∃ w2 r,
       exec (module_code name (sys_path w)) (emit (EvImport name (sys_path w)) (entered w))
         = (w2, r) ∧
       collect_pipelines filename w =
         (set_handler (pipeline_decorator_handler w) w2,
          match r with Ret _ => Ret (length (heap w)) | Raise e => Raise e end)) ∧
  (∀ py output function_name pp disable_type_check w,
     pipeline_decorator_handler
       (dsl_compile py output function_name pp disable_type_check w).1
     = pipeline_decorator_handler w).
Proof.
  split_and!.
  - intros self w. eexists _, _, _. rewrite __enter___run. split_and!; [done|done| |done].
    simpl. by rewrite lookup_app_r, Nat.sub_diag.
  - apply collect_pipelines_run.
  - intros py out fn pp d w. pose proof (imported_handler py w) as Hh.
    rewrite dsl_compile_run.
    destruct (imported py w) as [w2 [fs|e]]; simpl in Hh; rewrite try_finally_del_handler.
    + destruct (after_import_cases fs fn pp out (negb d) w2) as (_ & -> & _). done.
    + done.
Qed.

(** *** The collector *)

Lemma list_items_run l w : list_items l w = (w, Ret (default [] (heap w !! l))).
Proof. done. Qed.

Lemma set_heap_same w : set_heap (heap w) w = w.
Proof. by destruct w. Qed.

Lemma add_pipeline_run l func acc w :
  heap w !! l = Some acc →
  add_pipeline l func w = (set_heap (<[l := acc ++ [func]]> (heap w)) w, Ret func).
Proof. intros Hl. unfold add_pipeline, list_append. run. by rewrite Hl. Qed.

Lemma call_all_appends l funcs : ∀ acc w,
  heap w !! l = Some acc →
  call_all (add_pipeline_closure l) funcs w
  = (set_heap (<[l := acc ++ funcs]> (heap w)) w, Ret funcs).
Proof.
  induction funcs as [|func funcs IH]; intros acc w Hl.
  - simpl. rewrite app_nil_r, list_insert_id by done. by rewrite set_heap_same.
  - change (call_all (add_pipeline_closure l) (func :: funcs)) with
      (r ← add_pipeline l func; rs ← call_all (add_pipeline_closure l) funcs; mret (r :: rs)).
    erewrite bind_ret by (by apply add_pipeline_run).
    erewrite bind_ret.
    2:{ apply (IH (acc ++ [func])). simpl. apply list_lookup_insert_eq.
        by eapply lookup_lt_Some. }
    simpl. by rewrite list_insert_insert_eq, <- app_assoc.
Qed.

(** C7.  Once [__enter__] has run, calling the handler it installed on a
    sequence of functions, one after the other, returns each function
    unchanged and leaves in [pipeline_funcs] exactly those functions, the
    n-th one called at index n. *)
Theorem C7_collected_in_order (funcs : list Func) (self : PipelineCollectorContext)
    (w : World) :
  ∃ self' pipeline_funcs w1 h w2,
    __enter__ self w = (w1, Ret (self', pipeline_funcs)) ∧
    pipeline_decorator_handler w1 = Some h ∧
    call_all h funcs w1 = (w2, Ret funcs) ∧
    list_items pipeline_funcs w2 = (w2, Ret funcs) ∧
    heap w2 !! pipeline_funcs = Some funcs ∧
    ∀ n, default [] (heap w2 !! pipeline_funcs) !! n = funcs !! n.
Proof.
  assert (Hl : heap (entered w) !! length (heap w) = Some []).
  { simpl. by rewrite lookup_app_r, Nat.sub_diag. }
  pose proof (call_all_appends (length (heap w)) funcs [] (entered w) Hl) as Hcall.
  simpl in Hcall.
  assert (Hlook : (<[length (heap w) := funcs]> (heap w ++ [[]])) !! length (heap w)
                  = Some funcs).
  { apply list_lookup_insert_eq. rewrite length_app. simpl. lia. }
  set (h2 := <[length (heap w) := funcs]> (heap w ++ [[]])) in *.
  exists {| old_handler := Some (pipeline_decorator_handler w) |}, (length (heap w)),
    (entered w), (add_pipeline_closure (length (heap w))), (set_heap h2 (entered w)).
  rewrite __enter___run, list_items_run.
  change (heap (set_heap h2 (entered w))) with h2. rewrite Hlook.
  split_and!; done.
Qed.

(** *** Choosing the function *)

Lemma next_named_Some fs name f :
  next_named fs name = Some f →
  ∃ i, fs !! i = Some f ∧ __name__ f = name ∧
       ∀ j g, j < i → fs !! j = Some g → __name__ g ≠ name.
Proof.
  unfold next_named. induction fs as [|x fs IH]; [done|]. simpl.
  destruct (String.eqb (__name__ x) name) eqn:Hx.
  - intros [= ->]. exists 0. apply String.eqb_eq in Hx. split_and!; [done..|]. lia.
  - intros Hf. destruct (IH Hf) as (i & Hi & Hn & Hlt). exists (S i).
    split_and!; [done..|]. intros [|j] g Hj; simpl.
    + intros [= <-]. by apply String.eqb_neq.
    + apply Hlt. lia.
Qed.

Lemma next_named_None fs name :
  next_named fs name = None → ∀ g, g ∈ fs → __name__ g ≠ name.
Proof.
  unfold next_named. intros Hf g Hg. apply list_elem_of_In in Hg.
  apply String.eqb_neq. exact (find_none _ _ Hf g Hg).
Qed.

Lemma truthy_Some name : name ≠ "" → truthy (Some name) = true.
Proof. by destruct name. Qed.

(** C3, amended.  On a non-empty list of discovered functions: with a
    non-empty [function_name], the first function whose [__name__] equals it
    is the [pipeline_func] of the [compile] call, and when there is none the
    call raises the [ValueError] saying the function does not exist; with
    [function_name] [None] (or empty) and exactly one function discovered,
    that function is the [pipeline_func] of the [compile] call. *)
Theorem C3_function_selection (fs : list Func) (function_name : option string)
    (pp : option json) (out : string) (tc : bool) (w : World) :
  fs ≠ [] →
  (∀ name, function_name = Some name → name ≠ "" →
     match next_named fs name with
     | Some f =>
         (∃ i, fs !! i = Some f ∧ __name__ f = name ∧
               ∀ j g, j < i → fs !! j = Some g → __name__ g ≠ name) ∧
         _compile_pipeline_function fs function_name pp out tc w
         = Compiler_compile_call {| pipeline_func := f; pipeline_parameters := pp;
                                    package_path := out; type_check := tc |} w
     | None =>
         (∀ g, g ∈ fs → __name__ g ≠ name) ∧
         _compile_pipeline_function fs function_name pp out tc w
         = (w, Raise (ValueError (not_exist_msg name)))
     end) ∧
  (truthy function_name = false → ∀ f, fs = [f] →
     _compile_pipeline_function fs function_name pp out tc w
     = Compiler_compile_call {| pipeline_func := f; pipeline_parameters := pp;
                                package_path := out; type_check := tc |} w).
Proof.
  intros Hfs. split.
  - intros name -> Hname. unfold _compile_pipeline_function.
    rewrite bool_decide_eq_false_2 by (by destruct fs).
    rewrite truthy_Some, andb_false_r by done. simpl.
    destruct (next_named fs name) as [f|] eqn:Hf.
    + split; [by apply next_named_Some|done].
    + split; [by apply next_named_None|done].
  - intros Hfn f ->. unfold _compile_pipeline_function. simpl. by rewrite Hfn.
Qed.

(** *** [main] *)

(** C5, amended.  An exception raised by the command that is an instance of
    [Exception] is caught: [str(e)] is echoed to stderr and [main] ends with
    [SystemExit(1)].  Any other exception ([SystemExit], [KeyboardInterrupt])
    leaves [main] as it came, with nothing echoed.  So when [main] ends with
    [SystemExit(1)], either its handler has just echoed the message of the
    exception it caught, or the command itself raised that [SystemExit(1)]. *)
Theorem C5_main_reports (command : M unit) (w : World) :
  let w0 := emit EvBasicConfig w in
  (∀ w1 e, command w0 = (w1, Raise e) →
     main command w =
     if isinstance_Exception e
     then (emit (EvEcho true (str_exn e)) w1, Raise (SystemExit 1))
     else (w1, Raise e)) ∧
  (∀ w1, command w0 = (w1, Ret tt) → main command w = (w1, Ret tt)) ∧
  (∀ w', main command w = (w', Raise (SystemExit 1)) →
     command w0 = (w', Raise (SystemExit 1)) ∨
     ∃ w1 e, command w0 = (w1, Raise e) ∧ isinstance_Exception e = true ∧
             trace w' = trace w1 ++ [EvEcho true (str_exn e)]).
Proof.
  intros w0. unfold main, try_except, logging_basicConfig, click_echo. run. fold w0.
  split_and!.
  - intros w1 e ->. by destruct (isinstance_Exception e).
  - by intros w1 ->.
  - intros w'. destruct (command w0) as [w1 [[]|e]]; [done|].
    destruct (isinstance_Exception e) eqn:He.
    + intros [= <-]. right. eauto.
    + intros [= -> ->]. by left.
Qed.

End compile_py_facts.

Section cli_py_facts.
Context `{Ext : Externals} `{Cmds : Commands}.

(** Membership in the set built at lines 108-112. *)
Lemma elem_of_client_commands s :
  s ∈ client_commands ↔
  ∃ command, command ∈ COMMANDS_client ∧ (s = name command ∨ s = name command +:+ "s").
Proof.
  unfold client_commands. rewrite elem_of_list_to_set. change (concat ?l) with (mjoin l). rewrite list_elem_of_join.
  split.
  - intros (l & Hs & Hl). apply list_elem_of_fmap in Hl as (command & -> & Hc).
    exists command. split; [done|].
    by rewrite elem_of_cons, list_elem_of_singleton in Hs.
  - intros (command & Hc & Hs). exists [name command; name command +:+ "s"].
    split; [by rewrite elem_of_cons, list_elem_of_singleton|].
    apply list_elem_of_fmap. eauto.
Qed.

(** X16.  Without a client command, or with a completion option, [cli]
    constructs no client and hands the context back as it was. *)
Lemma cli_without_client ctx endpoint iap_client_id namespace other_client_id
    other_client_secret output show_completion install_completion w :
  truthy show_completion = true ∨ truthy install_completion = true ∨
  is_client_command (invoked_subcommand ctx) = false →
  let r := cli ctx endpoint iap_client_id namespace other_client_id other_client_secret
             output show_completion install_completion w in
  client_calls (trace r.1) = client_calls (trace w) ∧
  ∀ ctx', r.2 = Ret ctx' → ctx' = ctx.
Proof.
  intros H. unfold cli.
  destruct (truthy show_completion).
  { unfold click_echo. run. unfold client_calls. rewrite omap_app. simpl.
    rewrite app_nil_r. split; [done|]. by intros ? [= <-]. }
  destruct (truthy install_completion).
  { unfold _install_completion, append_to_file. run.
    destruct (SHELL_FILES !! _); simpl; [|done].
    destruct (open_append _); simpl; [done|].
    unfold client_calls. rewrite omap_app. simpl.
    rewrite app_nil_r. split; [done|]. by intros ? [= <-]. }
  destruct H as [?|[?| ->]]; [done..|]. simpl. split; [done|]. by intros ? [= <-].
Qed.

(** C8, amended.  When neither completion option is given and the invoked
    subcommand is a client command (or its plural), [cli] constructs a
    [Client] from the endpoint, the IAP client id, the namespace and the
    other client id and secret, and, when the constructor returns, hands on
    a context whose [obj] holds that client under ['client'] together with
    the namespace and the output format. *)
Theorem C8_client_for_client_commands (ctx : Context)
    (endpoint iap_client_id : option string) (namespace : string)
    (other_client_id other_client_secret : option string) (output : string)
    (show_completion install_completion : option string) (w : World) :
  truthy show_completion = false →
  truthy install_completion = false →
  is_client_command (invoked_subcommand ctx) = true →
  let a := {| host := endpoint; client_id := iap_client_id;
              client_namespace := namespace;
              client_other_client_id := other_client_id;
              client_other_client_secret := other_client_secret |} in
  cli ctx endpoint iap_client_id namespace other_client_id other_client_secret
      output show_completion install_completion w
  = (emit (EvClient a) w,
     match Client_init a with
     | Some e => Raise e
     | None =>
         Ret {| invoked_subcommand := invoked_subcommand ctx;
                obj := <["output" := VStr output]>
                         (<["namespace" := VStr namespace]>
                            (<["client" := VClient a]> (obj ctx))) |}
     end) ∧
  (Client_init a = None →
   ∃ ctx', (cli ctx endpoint iap_client_id namespace other_client_id other_client_secret
              output show_completion install_completion w).2 = Ret ctx' ∧
           obj ctx' !! "client" = Some (VClient a)).
Proof.
  intros Hshow Hinstall Hsub a.
  match goal with |- ?lhs = ?rhs ∧ _ => assert (Hcli : lhs = rhs) end.
  { unfold cli. rewrite Hshow, Hinstall, Hsub. simpl.
    unfold Client. run. fold a. by destruct (Client_init a). }
  split; [exact Hcli|]. intros Hnone. rewrite Hcli, Hnone.
  eexists. split; [done|]. cbn [obj].
  rewrite lookup_insert_ne by done. rewrite lookup_insert_ne by done.
  apply lookup_insert_eq.
Qed.

End cli_py_facts.

(** * The statements on concrete command lines *)

Import sample.

(** [kfp dsl compile --py /home/u/two.py --output out.json]: two candidates,
    no [--function]. *)
Lemma C1_ambiguous_pipeline_witness :
  let a := argv "/home/u/two.py" None None false in
  let w2 := (@imported env (arg_py a) w0).1 in
  let fs := [train; evaluate] in
  @imported env (arg_py a) w0 = (w2, Ret fs) ∧ 1 < length fs ∧ arg_function a = None ∧
  compile_calls (trace (@dsl_compile_command env a w0).1) = [] ∧
  (@dsl_compile_command env a w0).2
  = Raise (ValueError
      "There are multiple pipelines: ['train', 'evaluate']. Please specify --function.").
Proof.
  intros a w2 fs.
  assert (H1 : @imported env (arg_py a) w0 = (w2, Ret fs)) by (vm_compute; reflexivity).
  assert (H2 : 1 < length fs) by (simpl; lia).
  assert (H3 : arg_function a = None) by reflexivity.
  destruct (@C1_ambiguous_pipeline env a w0 w2 fs H1 H2 H3) as [Hcalls Hraise].
  split_and!; [exact H1|exact H2|exact H3|exact Hcalls|].
  refine (proj2 (Hraise (JDict ∅) eq_refl) _). vm_compute. discriminate.
Defined.

(** The same file with [--pipeline-parameters '{'], and a file that raises
    after its two decorated functions: in both, more than one function has
    been registered and [--function] is absent, yet what comes out of
    [dsl_compile] is not the [ValueError] about multiple pipelines. *)
Lemma C1_counterexample :
  let a := argv "/home/u/two.py" None (Some "{") false in
  let b := argv "/home/u/two_then_fails.py" None None false in
  (@imported env (arg_py a) w0).2 = Ret [train; evaluate] ∧
  arg_function a = None ∧
  (@dsl_compile_command env a w0).2
  = Raise (JSONDecodeError
      "Expecting property name enclosed in double quotes: line 1 column 2 (char 1)") ∧
  (@dsl_compile_command env a w0).2
  ≠ Raise (ValueError (@multiple_pipelines_msg env ["train"; "evaluate"])) ∧
  str_exn (JSONDecodeError
      "Expecting property name enclosed in double quotes: line 1 column 2 (char 1)")
  ≠ @multiple_pipelines_msg env ["train"; "evaluate"] ∧
  heap (@dsl_compile_command env b w0).1 !! 0 = Some [train; evaluate] ∧
  arg_function b = None ∧
  (@dsl_compile_command env b w0).2 = Raise (OtherException "RuntimeError" "boom").
Proof. vm_compute. split_and!; try reflexivity; discriminate. Qed.

(** [kfp dsl compile --py /home/u/empty.py --output out.json] *)
Lemma C2_missing_pipeline_witness :
  let a := argv "/home/u/empty.py" None None false in
  let w2 := (@imported env (arg_py a) w0).1 in
  @imported env (arg_py a) w0 = (w2, Ret []) ∧
  compile_calls (trace (@dsl_compile_command env a w0).1) = [] ∧
  (@dsl_compile_command env a w0).2
  = Raise (ValueError "A function with @dsl.pipeline decorator is required in the py file.").
Proof.
  intros a w2.
  assert (H1 : @imported env (arg_py a) w0 = (w2, Ret [])) by (vm_compute; reflexivity).
  destruct (@C2_missing_pipeline env a w0 w2 H1) as [Hcalls Hraise].
  split_and!; [exact H1|exact Hcalls|].
  refine (proj2 (Hraise (JDict ∅) eq_refl) _). vm_compute. discriminate.
Defined.

(** An empty file with [--pipeline-parameters '{'], and a path with no file
    behind it: no function is registered in either, yet what comes out of
    [dsl_compile] is not the [ValueError] about the missing pipeline
    function. *)
Lemma C2_counterexample :
  let a := argv "/home/u/empty.py" None (Some "{") false in
  let b := argv "/home/u/nofile.py" None None false in
  (@imported env (arg_py a) w0).2 = Ret [] ∧
  (@dsl_compile_command env a w0).2
  = Raise (JSONDecodeError
      "Expecting property name enclosed in double quotes: line 1 column 2 (char 1)") ∧
  (@dsl_compile_command env a w0).2 ≠ Raise (ValueError no_pipeline_msg) ∧
  str_exn (JSONDecodeError
      "Expecting property name enclosed in double quotes: line 1 column 2 (char 1)")
  ≠ no_pipeline_msg ∧
  heap (@dsl_compile_command env b w0).1 !! 0 = Some [] ∧
  (@dsl_compile_command env b w0).2 = Raise (ImportError "No module named 'nofile'").
Proof. vm_compute. split_and!; try reflexivity; discriminate. Qed.

(** [--function train] on a file whose second and third functions are both
    named [train], and [--function deploy] on the same file. *)
Lemma C3_function_selection_witness :
  let fs := [evaluate; train; train_again] in
  fs ≠ [] ∧
  @_compile_pipeline_function env fs (Some "train") (Some empty_dict) "out.json" true w0
  = @Compiler_compile_call env
      {| pipeline_func := train; pipeline_parameters := Some empty_dict;
         package_path := "out.json"; type_check := true |} w0 ∧
  @_compile_pipeline_function env fs (Some "deploy") (Some empty_dict) "out.json" true w0
  = (w0, Raise (ValueError (not_exist_msg "deploy"))) ∧
  @_compile_pipeline_function env [train] None (Some empty_dict) "out.json" true w0
  = @Compiler_compile_call env
      {| pipeline_func := train; pipeline_parameters := Some empty_dict;
         package_path := "out.json"; type_check := true |} w0.
Proof.
  intros fs.
  assert (Hfs : fs ≠ []) by discriminate.
  split_and!.
  - exact Hfs.
  - exact (proj2 (proj1 (@C3_function_selection env fs (Some "train") (Some empty_dict)
      "out.json" true w0 Hfs) "train" eq_refl ltac:(discriminate))).
  - exact (proj2 (proj1 (@C3_function_selection env fs (Some "deploy") (Some empty_dict)
      "out.json" true w0 Hfs) "deploy" eq_refl ltac:(discriminate))).
  - exact (proj2 (@C3_function_selection env [train] None (Some empty_dict)
      "out.json" true w0 ltac:(discriminate)) eq_refl train eq_refl).
Defined.

(** [--function deploy] on an empty list: no function is named [deploy], and
    the error is the one about the missing decorator, not the one saying the
    function does not exist.  [--function ''] on a single function: the name
    is not [None] and no function bears it, yet the call goes through. *)
Lemma C3_counterexample :
  @next_named [] "deploy" = None ∧
  @_compile_pipeline_function env [] (Some "deploy") (Some empty_dict) "out.json" true w0
  = (w0, Raise (ValueError no_pipeline_msg)) ∧
  ValueError no_pipeline_msg ≠ ValueError (not_exist_msg "deploy") ∧
  Some "" ≠ None ∧ next_named [train] "" = None ∧
  @_compile_pipeline_function env [train] (Some "") (Some empty_dict) "out.json" true w0
  = (emit (EvCompile {| pipeline_func := train; pipeline_parameters := Some empty_dict;
                        package_path := "out.json"; type_check := true |}) w0,
     Ret tt).
Proof. vm_compute. split_and!; try reflexivity; discriminate. Qed.

(** [--pipeline-parameters '{'] on a file with one pipeline function. *)
Lemma C4_malformed_parameters_witness :
  let a := argv "/home/u/one.py" None (Some "{") false in
  let w2 := (@imported env (arg_py a) w0).1 in
  let msg := "Expecting property name enclosed in double quotes: line 1 column 2 (char 1)" in
  @imported env (arg_py a) w0 = (w2, Ret [train]) ∧
  arg_pipeline_parameters a = Some "{" ∧
  @json_loads env "{" = inr msg ∧
  trace (@dsl_compile_command env a w0).1
  = [EvImport "one" ["/home/u"; "/usr/lib/python3"];
     EvLoggingError "Failed to parse --pipeline-parameters argument: {"] ∧
  compile_calls (trace (@dsl_compile_command env a w0).1) = [] ∧
  (@dsl_compile_command env a w0).2 = Raise (JSONDecodeError msg).
Proof.
  intros a w2 msg.
  assert (H1 : @imported env (arg_py a) w0 = (w2, Ret [train])) by (vm_compute; reflexivity).
  assert (H2 : arg_pipeline_parameters a = Some "{") by reflexivity.
  assert (H3 : @json_loads env "{" = inr msg) by reflexivity.
  destruct (@C4_malformed_parameters env a w0 w2 [train] "{" msg H1 H2 H3)
    as (Htrace & Hcalls & Hraise).
  split_and!; [exact H1|exact H2|exact H3|exact Htrace|exact Hcalls|].
  apply Hraise. vm_compute. discriminate.
Defined.

(** The same option on a path with no file behind it: the import fails
    first, [json.loads] is never reached, nothing is logged and the
    exception that leaves [dsl_compile] is the [ImportError]. *)
Lemma C4_counterexample :
  let a := argv "/home/u/nofile.py" None (Some "{") false in
  (∃ msg, @json_loads env "{" = inr msg) ∧
  arg_pipeline_parameters a = Some "{" ∧
  (@dsl_compile_command env a w0).2 = Raise (ImportError "No module named 'nofile'") ∧
  isinstance_JSONDecodeError (ImportError "No module named 'nofile'") = false ∧
  trace (@dsl_compile_command env a w0).1 = [EvImport "nofile" ["/home/u"; "/usr/lib/python3"]].
Proof. vm_compute. split_and!; try reflexivity. by eexists. Qed.


(** [main] around a compile of a path with no file behind it: the
    [ImportError] is an [Exception], so its text goes to stderr and the
    process ends with status 1. *)
Lemma C5_main_reports_witness :
  let command := @dsl_compile_command env (argv "/home/u/nofile.py" None None false) in
  let w1 := (command (emit EvBasicConfig w0)).1 in
  command (emit EvBasicConfig w0) = (w1, Raise (ImportError "No module named 'nofile'")) ∧
  main command w0
  = (emit (EvEcho true "No module named 'nofile'") w1, Raise (SystemExit 1)) ∧
  stderr_lines (trace (main command w0).1) = ["No module named 'nofile'"].
Proof.
  intros command w1.
  assert (H1 : command (emit EvBasicConfig w0)
               = (w1, Raise (ImportError "No module named 'nofile'")))
    by (vm_compute; reflexivity).
  pose proof (proj1 (C5_main_reports command w0) w1 _ H1) as Hmain.
  split_and!; [exact H1|exact Hmain|].
  rewrite Hmain. vm_compute. reflexivity.
Defined.

(** [main] around a compile of a file that calls [sys.exit(1)] while it is
    imported: the [SystemExit] raised out of [dsl_compile] is not caught,
    nothing is echoed, and the process ends with status 1. *)
Lemma C5_counterexample :
  let command := @dsl_compile_command env (argv "/home/u/exits.py" None None false) in
  (command (emit EvBasicConfig w0)).2 = Raise (SystemExit 1) ∧
  isinstance_Exception (SystemExit 1) = false ∧
  (main command w0).2 = Raise (SystemExit 1) ∧
  main command w0 = command (emit EvBasicConfig w0) ∧
  stderr_lines (trace (main command w0).1) = [].
Proof. vm_compute. split_and!; reflexivity. Qed.

(** [kfp --endpoint https://kfp.example runs ...] *)
Lemma C8_client_for_client_commands_witness :
  let a := {| host := Some "https://kfp.example"; client_id := None;
              client_namespace := "kubeflow"; client_other_client_id := None;
              client_other_client_secret := None |} in
  let r := @cli env commands (ctx0 (Some "runs")) (Some "https://kfp.example") None
             "kubeflow" None None "table" None None w0 in
  @is_client_command commands (Some "runs") = true ∧
  client_calls (trace r.1) = [a] ∧
  ∃ ctx', r.2 = Ret ctx' ∧ obj ctx' !! "client" = Some (VClient a).
Proof.
  intros a r.
  assert (H3 : @is_client_command commands (invoked_subcommand (ctx0 (Some "runs"))) = true)
    by (vm_compute; reflexivity).
  destruct (@C8_client_for_client_commands env commands (ctx0 (Some "runs"))
    (Some "https://kfp.example") None "kubeflow" None None "table" None None w0
    eq_refl eq_refl H3) as [Hcli Hobj].
  split_and!; [exact H3| |exact (Hobj eq_refl)].
  unfold r. rewrite Hcli. reflexivity.
Defined.

(** [kfp --show-completion bash], [kfp component ...] and [kfp] on its own:
    [cli] runs, no [Client] is constructed and nothing is stored in the
    context. *)
Lemma C8_counterexample :
  let shown := @cli env commands (ctx0 None) None None "kubeflow" None None "table"
                 (Some "bash") None w0 in
  let comp := @cli env commands (ctx0 (Some "component")) None None "kubeflow" None None
                "table" None None w0 in
  let bare := @cli env commands (ctx0 None) None None "kubeflow" None None "table"
                None None w0 in
  (client_calls (trace shown.1) = [] ∧ shown.2 = Ret (ctx0 None)) ∧
  (client_calls (trace comp.1) = [] ∧ comp.2 = Ret (ctx0 (Some "component"))) ∧
  (client_calls (trace bare.1) = [] ∧ bare.2 = Ret (ctx0 None)) ∧
  obj (ctx0 (Some "component")) !! "client" = None.
Proof. vm_compute. split_and!; reflexivity. Qed.

(** [kfp dsl compile --py /home/u/one.py --output out.json]: neither
    [--pipeline-parameters] nor [--disable-type-check]. *)
Lemma C9_compile_call_arguments_witness :
  let a := argv "/home/u/one.py" None None false in
  let w2 := (@imported env (arg_py a) w0).1 in
  arg_pipeline_parameters a = None ∧
  @imported env (arg_py a) w0 = (w2, Ret [train]) ∧
  ∃ call,
    compile_calls (trace (@dsl_compile_command env a w0).1) = [call] ∧
    pipeline_func call = train ∧
    pipeline_parameters call = Some empty_dict ∧
    type_check call = true.
Proof.
  intros a w2.
  assert (H1 : arg_pipeline_parameters a = None) by reflexivity.
  assert (H2 : @imported env (arg_py a) w0 = (w2, Ret [train]))
    by (vm_compute; reflexivity).
  destruct (proj1 (@C9_compile_call_arguments env a w0 H1) w2 [train] train H2
              (or_intror (conj eq_refl eq_refl)))
    as (call & Hcalls & Hf & Hpp & _ & _ & _ & Htc).
  split_and!; [exact H1|exact H2|].
  exists call. split_and!; [exact Hcalls|exact Hf|exact Hpp|exact (Htc eq_refl)].
Defined.

(** [kfp dsl compile --py /home/u/empty.py --output out.json]:
    [--pipeline-parameters] is omitted and the compiler is never called,
    with the empty dictionary or otherwise. *)
Lemma C9_counterexample :
  let a := argv "/home/u/empty.py" None None false in
  arg_pipeline_parameters a = None ∧
  compile_calls (trace (@dsl_compile_command env a w0).1) = [] ∧
  (@dsl_compile_command env a w0).2 = Raise (ValueError no_pipeline_msg).
Proof. vm_compute. split_and!; reflexivity. Qed.

(** A compile of a file that leaves [sys.path] alone, here one that ends in
    the ambiguity error. *)
Lemma C10_sys_path_restored_witness :
  let py := "/home/u/two.py" in
  forallb (λ s, negb (assigns_sys_path s))
    (@module_code env (@os_path_splitext env (@os_path_basename env py)).1
       (@os_path_dirname env py :: sys_path w0)) = true ∧
  sys_path (@dsl_compile env py "out.json" None None false w0).1 = sys_path w0.
Proof.
  intros py.
  assert (H1 : forallb (λ s, negb (assigns_sys_path s))
    (@module_code env (@os_path_splitext env (@os_path_basename env py)).1
       (@os_path_dirname env py :: sys_path w0)) = true) by (vm_compute; reflexivity).
  split; [exact H1|].
  exact (proj2 (proj2 (@C10_sys_path_restored env py "out.json" None None false w0)) H1).
Defined.

(** * Further properties of [cli.py] *)

Section string_facts.

Lemma append_cons a s t : String a s +:+ t = String a (s +:+ t).
Proof. done. Qed.


Lemma append_length s t : String.length (s +:+ t) = String.length s + String.length t.
Proof. induction s as [|a s IH]; [done|]. rewrite append_cons. simpl. by rewrite IH. Qed.

Lemma append_inj_r t : ∀ s1 s2, s1 +:+ t = s2 +:+ t → s1 = s2.
Proof.
  induction s1 as [|a s1 IH]; intros [|b s2] H.
  - done.
  - apply (f_equal String.length) in H. rewrite !append_length in H. simpl in H. lia.
  - apply (f_equal String.length) in H. rewrite !append_length in H. simpl in H. lia.
  - rewrite !append_cons in H. injection H as -> H. f_equal. by apply IH.
Qed.





End string_facts.

Section further_cli_facts.
Context `{Ext : Externals} `{Cmds : Commands}.

Lemma client_calls_app t1 t2 :
  client_calls (t1 ++ t2) = client_calls t1 ++ client_calls t2.
Proof. apply omap_app. Qed.

Lemma SHELL_FILES_lookup shell :
  SHELL_FILES !! shell =
  if decide ("bash" = shell) then Some [".bashrc"]
  else if decide ("zsh" = shell) then Some [".zshrc"]
  else if decide ("fish" = shell)
       then Some [".config"; "fish"; "completions"; PROGRAM_NAME +:+ ".fish"]
       else None.
Proof. unfold SHELL_FILES. by rewrite !lookup_insert, lookup_empty. Qed.

(** X1.  [_install_completion] knows exactly the shells [bash], [zsh] and
    [fish].  For these it opens the shell's start-up file under the home
    directory for appending: when that succeeds it appends the completion
    statement, on a line of its own, and does nothing else; when it fails
    the error of [open] is raised and nothing is written.  For any other
    shell it raises [KeyError] before any file is touched. *)
Theorem _install_completion_shells (shell : string) (w : World) :
  (shell ∈ ["bash"; "zsh"; "fish"] →
   ∃ parts, SHELL_FILES !! shell = Some parts ∧
     let source_file := os_path_join (os_path_expanduser "~") parts in
     _install_completion shell w
     = match open_append source_file with
       | None =>
           (emit (EvFileAppend source_file
                    (newline +:+ _create_completion shell +:+ newline)) w,
            Ret tt)
       | Some e => (w, Raise e)
       end) ∧
  (shell ∉ ["bash"; "zsh"; "fish"] →
   _install_completion shell w = (w, Raise (KeyError (repr_str shell)))).
Proof.
  unfold _install_completion, append_to_file. rewrite SHELL_FILES_lookup. split.
  - intros Hin.
    assert (Hrun : ∀ parts,
      match open_append (os_path_join (os_path_expanduser "~") parts) with
      | Some e => raise e
      | None => modify (emit (EvFileAppend (os_path_join (os_path_expanduser "~") parts)
                                (newline +:+ _create_completion shell +:+ newline)))
      end w
      = match open_append (os_path_join (os_path_expanduser "~") parts) with
        | None => (emit (EvFileAppend (os_path_join (os_path_expanduser "~") parts)
                           (newline +:+ _create_completion shell +:+ newline)) w, Ret tt)
        | Some e => (w, Raise e)
        end).
    { intros parts. by destruct (open_append _). }
    repeat case_decide; eauto.
    rewrite !elem_of_cons, elem_of_nil in Hin.
    by destruct Hin as [ -> | [ -> | [ -> | [] ] ] ].
  - intros Hout. rewrite !elem_of_cons in Hout.
    repeat case_decide; subst; try done; exfalso; apply Hout; auto.
Qed.

(** X2.  Different shells get different completion statements. *)
Theorem _create_completion_inj (shell1 shell2 : string) :
  _create_completion shell1 = _create_completion shell2 → shell1 = shell2.
Proof.
  unfold _create_completion. intros H.
  do 5 apply (inj (String.app _)) in H.
  by apply append_inj_r in H.
Qed.

(** X3.  The completion options come first.  With [--show-completion] the
    statement is echoed to stdout and nothing else happens, also when
    [--install-completion] or a client command is given as well; with
    [--install-completion] alone, [cli] does what [_install_completion] does
    and nothing else.  Either way the context is handed on as it was. *)
Theorem cli_completion_options (ctx : Context)
    (endpoint iap_client_id : option string) (namespace : string)
    (other_client_id other_client_secret : option string) (output : string)
    (show_completion install_completion : option string) (w : World) :
  let r := cli ctx endpoint iap_client_id namespace other_client_id other_client_secret
             output show_completion install_completion w in
  (∀ shell, show_completion = Some shell → shell ≠ "" →
     r = (emit (EvEcho false (_create_completion shell)) w, Ret ctx)) ∧
  (truthy show_completion = false →
   ∀ shell, install_completion = Some shell → shell ≠ "" →
     r.1 = (_install_completion shell w).1 ∧
     r.2 = match (_install_completion shell w).2 with
           | Ret _ => Ret ctx
           | Raise e => Raise e
           end).
Proof.
  intros r. unfold r, cli. split.
  - intros shell -> Hs. by rewrite truthy_Some.
  - intros -> shell -> Hs. rewrite truthy_Some by done. simpl.
    unfold mbind, M_bind. by destruct (_install_completion shell w) as [w1 [[]|e]].
Qed.

(** X4.  After a run of [cli] that constructs the client, the context holds
    the namespace and the output format next to the client, every other
    item of [ctx.obj] is as it was, the invoked subcommand is unchanged, and
    the construction of the client is the only call [cli] has made. *)
Theorem cli_client_frame (ctx : Context)
    (endpoint iap_client_id : option string) (namespace : string)
    (other_client_id other_client_secret : option string) (output : string)
    (show_completion install_completion : option string) (w : World) :
  truthy show_completion = false →
  truthy install_completion = false →
  is_client_command (invoked_subcommand ctx) = true →
  let a := {| host := endpoint; client_id := iap_client_id;
              client_namespace := namespace;
              client_other_client_id := other_client_id;
              client_other_client_secret := other_client_secret |} in
  let r := cli ctx endpoint iap_client_id namespace other_client_id other_client_secret
             output show_completion install_completion w in
  Client_init a = None →
  trace r.1 = trace w ++ [EvClient a] ∧
  ∃ ctx', r.2 = Ret ctx' ∧
    invoked_subcommand ctx' = invoked_subcommand ctx ∧
    obj ctx' !! "namespace" = Some (VStr namespace) ∧
    obj ctx' !! "output" = Some (VStr output) ∧
    ∀ k, k ∉ ["client"; "namespace"; "output"] → obj ctx' !! k = obj ctx !! k.
Proof.
  intros Hshow Hinstall Hsub a r Ha.
  assert (Hr : r = (emit (EvClient a) w,
    Ret (obj_setitem "output" (VStr output)
           (obj_setitem "namespace" (VStr namespace)
              (obj_setitem "client" (VClient a) ctx))))).
  { unfold r, cli. rewrite Hshow, Hinstall, Hsub. simpl.
    unfold Client, mbind, M_bind, modify, mret, M_ret. fold a. by rewrite Ha. }
  rewrite Hr. split; [done|]. eexists. split; [done|]. cbn [obj obj_setitem snd].
  split_and!.
  - done.
  - rewrite lookup_insert_ne by done. apply lookup_insert_eq.
  - apply lookup_insert_eq.
  - intros k Hk. rewrite !elem_of_cons in Hk.
    rewrite !lookup_insert_ne; [done|intros Heq; apply Hk; subst k; auto..].
Qed.

(** X5.  One run of [cli] constructs at most one client, and it constructs
    one exactly when neither completion option is given and the invoked
    subcommand is a client command. *)
Theorem cli_client_calls (ctx : Context)
    (endpoint iap_client_id : option string) (namespace : string)
    (other_client_id other_client_secret : option string) (output : string)
    (show_completion install_completion : option string) (w : World) :
  let a := {| host := endpoint; client_id := iap_client_id;
              client_namespace := namespace;
              client_other_client_id := other_client_id;
              client_other_client_secret := other_client_secret |} in
  let r := cli ctx endpoint iap_client_id namespace other_client_id other_client_secret
             output show_completion install_completion w in
  client_calls (trace r.1) =
  client_calls (trace w) ++
    (if negb (truthy show_completion) && negb (truthy install_completion)
        && is_client_command (invoked_subcommand ctx)
     then [a] else []).
Proof.
  intros a r. unfold r, cli.
  destruct (truthy show_completion); simpl.
  { unfold click_echo, mbind, M_bind, modify. simpl.
    by rewrite client_calls_app. }
  destruct (truthy install_completion); simpl.
  { unfold _install_completion, append_to_file, mbind, M_bind, modify, raise.
    destruct (SHELL_FILES !! _); simpl; [|by rewrite app_nil_r].
    destruct (open_append _); simpl; [by rewrite app_nil_r|].
    by rewrite client_calls_app. }
  destruct (is_client_command _); simpl; [|by rewrite app_nil_r].
  unfold Client, mbind, M_bind, modify. fold a.
  destruct (Client_init a); simpl; by rewrite client_calls_app.
Qed.

(** X17.  Which subcommands get a client.  With no completion option given,
    [cli] constructs the [Client] exactly when a subcommand is invoked whose
    name is the name of one of the four client command groups or such a name
    followed by [s]; with any other subcommand, or none, it constructs
    nothing. *)
Theorem cli_client_command_names (ctx : Context)
    (endpoint iap_client_id : option string) (namespace : string)
    (other_client_id other_client_secret : option string) (output : string)
    (show_completion install_completion : option string) (w : World) :
  truthy show_completion = false →
  truthy install_completion = false →
  let a := {| host := endpoint; client_id := iap_client_id;
              client_namespace := namespace;
              client_other_client_id := other_client_id;
              client_other_client_secret := other_client_secret |} in
  let r := cli ctx endpoint iap_client_id namespace other_client_id other_client_secret
             output show_completion install_completion w in
  let named := ∃ s command, invoked_subcommand ctx = Some s ∧
                 command ∈ [run; recurring_run; experiment; pipeline] ∧
                 (s = name command ∨ s = name command +:+ "s") in
  (named → trace r.1 = trace w ++ [EvClient a]) ∧
  (¬ named → r = (w, Ret ctx)) ∧
  (client_calls (trace r.1) = client_calls (trace w) ++ [a] ↔ named).
Proof.
  intros Hshow Hinstall a r named.
  assert (Hnamed : is_client_command (invoked_subcommand ctx) = true ↔ named).
  { unfold named, is_client_command. destruct (invoked_subcommand ctx) as [s|].
    - rewrite bool_decide_eq_true, elem_of_client_commands. split.
      + intros (command & Hc & Hs). by exists s, command.
      + intros (s' & command & Heq & Hc & Hs). injection Heq as <-. by exists command.
    - split; [done|]. by intros (s & command & ? & _). }
  unfold r, cli. rewrite Hshow, Hinstall.
  destruct (is_client_command (invoked_subcommand ctx)) eqn:Hsub; simpl.
  - assert (Hn : named) by (by apply Hnamed).
    assert (Ht : trace ((Client a ≫= λ client,
        mret (obj_setitem "output" (VStr output)
               (obj_setitem "namespace" (VStr namespace)
                  (obj_setitem "client" client ctx)))) w).1 = trace w ++ [EvClient a]).
    { unfold Client, mbind, M_bind, modify. by destruct (Client_init a). }
    fold a. split_and!; [done|done|]. rewrite Ht, client_calls_app. done.
  - assert (Hn : ¬ named) by (intros Hn; apply Hnamed in Hn; done).
    split_and!; [done|done|]. split; [|done]. simpl.
    intros Heq. apply (f_equal length) in Heq. rewrite length_app in Heq. simpl in Heq. lia.
Qed.

End further_cli_facts.

(** * Further properties of [compile.py] *)

Section further_compile_facts.
Context `{Ext : Externals}.

Lemma next_named_is_Some fs name :
  is_Some (next_named fs name) ↔ ∃ f, f ∈ fs ∧ __name__ f = name.
Proof.
  split.
  - intros [f Hf]. exists f. destruct (next_named_Some _ _ _ Hf) as (i & Hi & Hn & _).
    split; [|done]. apply list_elem_of_lookup. eauto.
  - intros (f & Hf & Hn). destruct (next_named fs name) as [g|] eqn:Hg; [eauto|].
    by destruct (next_named_None _ _ Hg f Hf).
Qed.

(** Before the compiler is reached nothing is changed and the only
    exception is a [ValueError]. *)
Lemma _compile_pipeline_function_outcome fs fn pp out tc w :
  (∃ msg, _compile_pipeline_function fs fn pp out tc w = (w, Raise (ValueError msg))) ∨
  (∃ f, f ∈ fs ∧
     _compile_pipeline_function fs fn pp out tc w =
     Compiler_compile_call {| pipeline_func := f; pipeline_parameters := pp;
                              package_path := out; type_check := tc |} w).
Proof.
  unfold _compile_pipeline_function.
  case_bool_decide; [left; eauto|].
  destruct (bool_decide (1 < length fs) && negb (truthy fn)); [left; eauto|].
  destruct (truthy fn).
  - destruct (next_named fs (default "" fn)) as [f|] eqn:Hf; [|left; eauto].
    right. exists f. split; [|done].
    destruct (next_named_Some _ _ _ Hf) as (i & Hi & _).
    apply list_elem_of_lookup. eauto.
  - destruct fs as [|f fs]; [done|]. right. exists f. split; [left|done].
Qed.

(** X6.  [_compile_pipeline_function] reaches the compiler exactly when the
    list is not empty and either a non-empty [function_name] is borne by
    some discovered function, or [function_name] is absent (or empty) and
    there is a single function.  In every other case it raises a
    [ValueError] and has changed nothing; in particular [pipeline_funcs[0]]
    is never evaluated on an empty list. *)
Theorem _compile_pipeline_function_reaches_compiler (fs : list Func)
    (function_name : option string) (pp : option json) (out : string) (tc : bool)
    (w : World) :
  let reaches :=
    fs ≠ [] ∧
    if truthy function_name
    then ∃ f, f ∈ fs ∧ __name__ f = default "" function_name
    else length fs = 1 in
  (reaches →
   ∃ f, f ∈ fs ∧
     _compile_pipeline_function fs function_name pp out tc w
     = Compiler_compile_call {| pipeline_func := f; pipeline_parameters := pp;
                                package_path := out; type_check := tc |} w) ∧
  (¬ reaches →
   ∃ msg, _compile_pipeline_function fs function_name pp out tc w
          = (w, Raise (ValueError msg))).
Proof.
  intros reaches. unfold reaches, _compile_pipeline_function. clear reaches.
  case_bool_decide as Hlen.
  { split; [intros [Hne _]; by destruct fs|]. intros _. by eexists. }
  assert (Hne : fs ≠ []) by (by intros ->).
  destruct (truthy function_name) eqn:Hfn.
  - rewrite andb_false_r. set (name := default "" function_name).
    destruct (next_named fs name) as [f|] eqn:Hf.
    + split; [|intros Hno; destruct Hno; split; [done|];
                apply next_named_is_Some; eauto].
      intros _. exists f. split; [|done].
      destruct (next_named_Some _ _ _ Hf) as (i & Hi & _).
      apply list_elem_of_lookup. eauto.
    + split; [|intros _; by eexists].
      intros [_ Hex]. apply next_named_is_Some in Hex as [g Hg]. congruence.
  - rewrite andb_true_r. case_bool_decide as Hmany.
    + split; [intros [_ ?]; lia|]. intros _. by eexists.
    + split; [|intros Hno; destruct Hno; split; [done|]; destruct fs; simpl in *; [done|lia]].
      intros _. destruct fs as [|f fs]; [done|]. exists f. split; [left|done].
Qed.

(** X7.  [--function ''] is the same as no [--function] at all: the two
    runs of [dsl_compile] end in the same state with the same outcome. *)
Theorem dsl_compile_empty_function_name (py output : string) (pp : option string)
    (disable_type_check : bool) (w : World) :
  dsl_compile py output (Some "") pp disable_type_check w
  = dsl_compile py output None pp disable_type_check w.
Proof. reflexivity. Qed.

(** What the part after the import adds to the trace, and how it ends. *)
Lemma after_import_trace fs fn pp out tc w :
  let c := (parsed ← parse_parameters pp;
            _compile_pipeline_function fs fn (Some parsed) out tc) in
  (∃ v msg, decoded pp = inl v ∧ c w = (w, Raise (ValueError msg)))
  ∨ (∃ s msg, pp = Some s ∧ json_loads s = inr msg ∧
       c w = (emit (EvLoggingError (parse_failure_msg pp)) w, Raise (JSONDecodeError msg)))
  ∨ (∃ f v, f ∈ fs ∧ decoded pp = inl v ∧
       let call := {| pipeline_func := f; pipeline_parameters := Some v;
                      package_path := out; type_check := tc |} in
       c w = (emit (EvCompile call) w,
              match Compiler_compile call with None => Ret tt | Some e => Raise e end)).
Proof.
  intros c. unfold c. unfold mbind, M_bind. rewrite parse_parameters_run.
  destruct (decoded pp) as [v|msg] eqn:Hd; simpl.
  - destruct (_compile_pipeline_function_outcome fs fn (Some v) out tc w)
      as [[msg ->]|(f & Hf & ->)].
    + left. eauto.
    + rewrite Compiler_compile_call_run. right. right. eauto 10.
  - right. left. destruct pp as [s|]; [|done]. simpl in Hd. eauto 10.
Qed.

(** X8.  What one run of [dsl_compile] does to the outside, in order: the
    import, with the directory of [py] first on the path; then either
    nothing, or one logged parse failure (only when [--pipeline-parameters]
    is given and does not decode), or one [compile] call.  Never both a
    logged failure and a [compile] call; and a [compile] call is always for
    a function the import has collected, with the decoded parameters, the
    [--output] path and the negated flag. *)
Theorem dsl_compile_events (py output : string) (function_name pp : option string)
    (disable_type_check : bool) (w : World) :
  let r := dsl_compile py output function_name pp disable_type_check w in
  let import := EvImport (os_path_splitext (os_path_basename py)).1
                  (os_path_dirname py :: sys_path w) in
  trace r.1 = trace w ++ [import]
  ∨ (∃ s msg, pp = Some s ∧ json_loads s = inr msg ∧
       trace r.1 = trace w ++ [import; EvLoggingError (parse_failure_msg pp)])
  ∨ (∃ w2 fs f v, imported py w = (w2, Ret fs) ∧ f ∈ fs ∧ decoded pp = inl v ∧
       trace r.1 = trace w ++
         [import;
          EvCompile {| pipeline_func := f; pipeline_parameters := Some v;
                       package_path := output;
                       type_check := negb disable_type_check |}]).
Proof.
  intros r import. unfold r. pose proof (imported_trace py w) as Ht. fold import in Ht.
  rewrite dsl_compile_run.
  destruct (imported py w) as [w2 [fs|e]] eqn:Himp; simpl in Ht;
    rewrite try_finally_del_trace.
  - destruct (after_import_trace fs function_name pp output (negb disable_type_check) w2)
      as [(v & msg & _ & ->)|[(s & msg & Hs & Hl & ->)|(f & v & Hf & Hv & ->)]]; simpl.
    + by left.
    + right. left. exists s, msg. split_and!; [done..|]. by rewrite Ht, <- app_assoc.
    + right. right. exists w2, fs, f, v. split_and!; [done..|]. by rewrite Ht, <- app_assoc.
  - by left.
Qed.

(** X9.  Once the compiler is reached, its outcome is the outcome of
    [dsl_compile]: a normal return when it returns, its exception when it
    raises; in both cases the first item of [sys.path] has been deleted by
    then. *)
Theorem dsl_compile_compiler_outcome (py output : string)
    (function_name pp : option string) (disable_type_check : bool)
    (w w2 : World) (fs : list Func) (v : json) (call : CompileCall) :
  imported py w = (w2, Ret fs) →
  decoded pp = inl v →
  _compile_pipeline_function fs function_name (Some v) output (negb disable_type_check) w2
    = Compiler_compile_call call w2 →
  sys_path w2 ≠ [] →
  dsl_compile py output function_name pp disable_type_check w
  = (set_sys_path (drop 1 (sys_path w2)) (emit (EvCompile call) w2),
     match Compiler_compile call with
     | None => Ret tt
     | Some e => Raise e
     end).
Proof.
  intros Himp Hv Hcall Hp. rewrite dsl_compile_run, Himp, try_finally_del.
  unfold mbind, M_bind. rewrite parse_parameters_run, Hv, Hcall, Compiler_compile_call_run.
  simpl. by destruct (sys_path w2).
Qed.

(** X10.  When the import leaves [sys.path] empty, [del sys.path[0]] in the
    [finally] fails and its [IndexError] is what [dsl_compile] raises,
    whatever the body of the [try] had produced. *)
Theorem dsl_compile_finally_masks (py output : string)
    (function_name pp : option string) (disable_type_check : bool)
    (w w2 : World) (r : outcome (list Func)) :
  imported py w = (w2, r) →
  sys_path w2 = [] →
  (dsl_compile py output function_name pp disable_type_check w).2
  = Raise (IndexError "list assignment index out of range").
Proof.
  intros Himp Hp. rewrite dsl_compile_run, Himp, try_finally_del.
  destruct r as [fs|e]; simpl.
  - destruct (after_import_cases fs function_name pp output (negb disable_type_check) w2)
      as (-> & _). by rewrite Hp.
  - by rewrite Hp.
Qed.

(** *** Where the exceptions of [dsl_compile] come from *)

Lemma exec_stmt_raise s w w' e :
  exec_stmt s w = (w', Raise e) → s = RaiseStmt e.
Proof.
  destruct s as [f|h|p|e']; simpl; try done.
  - unfold decorate, mbind, M_bind, get.
    destruct (pipeline_decorator_handler w) as [[l]|]; simpl; [|done].
    unfold add_pipeline, list_append, mbind, M_bind, modify. done.
  - by intros [= _ ->].
Qed.

Lemma exec_raise m : ∀ w w' e, exec m w = (w', Raise e) → RaiseStmt e ∈ m.
Proof.
  induction m as [|s m IH]; intros w w' e; [done|].
  simpl. unfold mbind, M_bind.
  destruct (exec_stmt s w) as [w1 [[]|e1]] eqn:Hs.
  - intros He. right. by eapply IH.
  - intros [= _ ->]. apply exec_stmt_raise in Hs as ->. left.
Qed.

Lemma imported_raise py w w2 e :
  imported py w = (w2, Raise e) →
  RaiseStmt e ∈ module_code (os_path_splitext (os_path_basename py)).1
                  (os_path_dirname py :: sys_path w).
Proof.
  rewrite imported_run. simpl.
  destruct (collect_pipelines_run (os_path_basename py)
    (set_sys_path (os_path_dirname py :: sys_path w) w)) as (w3 & r & He & ->).
  destruct r as [[]|e']; [done|]. intros [= _ ->]. by eapply exec_raise.
Qed.

Lemma dsl_compile_raise_cases py out fn pp d w e :
  (dsl_compile py out fn pp d w).2 = Raise e →
  RaiseStmt e ∈ module_code (os_path_splitext (os_path_basename py)).1
                  (os_path_dirname py :: sys_path w)
  ∨ (∃ msg, e = ValueError msg) ∨ (∃ msg, e = JSONDecodeError msg)
  ∨ (∃ msg, e = IndexError msg) ∨ (∃ c, Compiler_compile c = Some e).
Proof.
  rewrite dsl_compile_run.
  destruct (imported py w) as [w2 [fs|e0]] eqn:Himp; rewrite try_finally_del.
  - destruct (after_import_trace fs fn pp out (negb d) w2)
      as [(v & msg & _ & ->)|[(s & msg & Hs & Hl & ->)|(f & v & Hf & Hv & ->)]]; simpl.
    + destruct (sys_path w2); intros [= <-]; eauto 10.
    + destruct (sys_path w2); intros [= <-]; eauto 10.
    + destruct (sys_path w2); [intros [= <-]; eauto 10|].
      destruct (Compiler_compile _) eqn:Hc; [|done]. intros [= <-]. eauto 10.
  - simpl. destruct (sys_path w2); intros [= <-]; [eauto 10|].
    left. by eapply imported_raise.
Qed.

(** X11.  When the imported file raises only instances of [Exception] and
    so does the compiler, every exception that leaves [dsl_compile] is an
    instance of [Exception]. *)
Theorem dsl_compile_raises_Exception (py output : string)
    (function_name pp : option string) (disable_type_check : bool) (w : World) (e : exn) :
  forallb raises_Exception_only
    (module_code (os_path_splitext (os_path_basename py)).1
       (os_path_dirname py :: sys_path w)) = true →
  (∀ c e', Compiler_compile c = Some e' → isinstance_Exception e' = true) →
  (dsl_compile py output function_name pp disable_type_check w).2 = Raise e →
  isinstance_Exception e = true.
Proof.
  intros Hm Hc He.
  destruct (dsl_compile_raise_cases _ _ _ _ _ _ _ He)
    as [Hin|[[msg ->]|[[msg ->]|[[msg ->]|[c Hcc]]]]]; [|done..|by eapply Hc].
  rewrite forallb_forall in Hm. apply list_elem_of_In in Hin. exact (Hm _ Hin).
Qed.

(** *** What a collector collects *)

Lemma insert_last {A} (h : list A) (x y : A) : <[length h := x]> (h ++ [y]) = h ++ [x].
Proof. rewrite insert_app_r_alt by lia. by rewrite Nat.sub_diag. Qed.

Lemma exec_collects l m : ∀ acc w,
  forallb (λ s, negb (assigns_handler s)) m = true →
  pipeline_decorator_handler w = Some (add_pipeline_closure l) →
  heap w !! l = Some acc →
  heap (exec m w).1 = <[l := acc ++ decorated m]> (heap w).
Proof.
  induction m as [|s m IH]; intros acc w Hm Hh Hl.
  - simpl. by rewrite app_nil_r, list_insert_id.
  - simpl in Hm. apply andb_prop in Hm as [Hs Hm].
    destruct s as [f|h|p|e]; [| done | |].
    + assert (Hf : exec_stmt (Decorate f) w
                   = (set_heap (<[l := acc ++ [f]]> (heap w)) w, Ret tt)).
      { simpl. unfold decorate. run. rewrite Hh. simpl.
        unfold add_pipeline, list_append. run. by rewrite Hl. }
      change (exec (Decorate f :: m)) with (exec_stmt (Decorate f) ≫= λ _, exec m).
      erewrite bind_ret by exact Hf.
      rewrite (IH (acc ++ [f])); [|done|done|].
      * simpl. by rewrite list_insert_insert_eq, <- app_assoc.
      * simpl. apply list_lookup_insert_eq. by eapply lookup_lt_Some.
    + change (exec (AssignSysPath p :: m) w) with (exec m (set_sys_path p w)).
      by rewrite (IH acc).
    + simpl. by rewrite app_nil_r, list_insert_id.
Qed.

(** X13.  When the imported file does not assign the handler itself, the
    [with] block adds exactly one list to the heap: the functions the file
    decorates before its first [raise], in the order of the file.  The lists
    that were there before, those of enclosing collectors included, are
    untouched, and this also when the import raises. *)
Theorem collect_pipelines_collects (filename : string) (w : World) :
  let m := module_code (os_path_splitext filename).1 (sys_path w) in
  forallb (λ s, negb (assigns_handler s)) m = true →
  let r := collect_pipelines filename w in
  heap r.1 = heap w ++ [decorated m] ∧
  ∀ pipeline_funcs, r.2 = Ret pipeline_funcs →
    pipeline_funcs = length (heap w) ∧ heap r.1 !! pipeline_funcs = Some (decorated m).
Proof.
  intros m Hm r. unfold r.
  destruct (collect_pipelines_run filename w) as (w2 & o & He & ->). fold m in He.
  pose proof (exec_collects (length (heap w)) m []
    (emit (EvImport (os_path_splitext filename).1 (sys_path w)) (entered w)) Hm eq_refl) as Hc.
  rewrite He in Hc. simpl in Hc. rewrite insert_last in Hc.
  - cbn [fst snd heap set_handler]. rewrite Hc; [|by rewrite lookup_app_r, Nat.sub_diag].
    split; [done|]. intros l Hl. destruct o as [[]|e]; [|done]. injection Hl as <-.
    split; [done|]. by rewrite lookup_app_r, Nat.sub_diag.
Qed.

Lemma with_collector_run {A} (body : loc → M A) w :
  with_as PipelineCollectorContext_new __enter__ __exit__ body w =
  ((set_handler (pipeline_decorator_handler w) (body (length (heap w)) (entered w)).1),
   (body (length (heap w)) (entered w)).2).
Proof.
  unfold with_as, mbind, M_bind. rewrite __enter___run.
  by destruct (body (length (heap w)) (entered w)) as [w1 r].
Qed.

Lemma register_all_run l funcs acc w :
  pipeline_decorator_handler w = Some (add_pipeline_closure l) →
  heap w !! l = Some acc →
  register_all funcs w = (set_heap (<[l := acc ++ funcs]> (heap w)) w, Ret funcs).
Proof.
  intros Hh Hl. unfold register_all, mbind, M_bind, get. rewrite Hh.
  by apply call_all_appends.
Qed.

(** X14.  Collectors nest.  With one [with] block inside another, the
    functions registered while the inner block is open go to the inner list
    only, those registered before and after it go to the outer list, in
    order, and at the end the handler is the one that was installed before
    the outer block. *)
Theorem nested_collectors_separate (before during after : list Func) (w : World) :
  let outer := length (heap w) in
  let inner := S (length (heap w)) in
  ∃ w', nested_collectors before during after w = (w', Ret (outer, inner)) ∧
    heap w' = heap w ++ [before ++ after; during] ∧
    pipeline_decorator_handler w' = pipeline_decorator_handler w ∧
    sys_path w' = sys_path w ∧ trace w' = trace w.
Proof.
  intros outer inner. unfold nested_collectors. rewrite with_collector_run.
  set (w1 := entered w).
  assert (H1 : register_all before w1 = (set_heap (heap w ++ [before]) w1, Ret before)).
  { erewrite (register_all_run outer before []); [|done|].
    - simpl. unfold outer. by rewrite insert_last.
    - simpl. unfold outer. by rewrite lookup_app_r, Nat.sub_diag. }
  set (w2 := set_heap (heap w ++ [before]) w1) in *.
  assert (Hlen2 : length (heap w2) = inner).
  { simpl. rewrite length_app. simpl. unfold inner. lia. }
  assert (H2 : register_all during (entered w2)
               = (set_heap (heap w ++ [before; during]) (entered w2), Ret during)).
  { erewrite (register_all_run inner during []); [|by rewrite <- Hlen2|].
    - simpl. f_equal. f_equal. unfold inner.
      replace (S (length (heap w))) with (length (heap w ++ [before]))
        by (rewrite length_app; simpl; lia).
      rewrite insert_last. by rewrite <- app_assoc.
    - rewrite <- Hlen2. simpl. by rewrite lookup_app_r, Nat.sub_diag. }
  set (w3 := set_handler (Some (add_pipeline_closure outer))
               (set_heap (heap w ++ [before; during]) (entered w2))).
  assert (H3 : register_all after w3
               = (set_heap (heap w ++ [before ++ after; during]) w3, Ret after)).
  { erewrite (register_all_run outer after before); [|done|].
    - simpl. f_equal. f_equal. unfold outer.
      rewrite insert_app_r_alt by lia. by rewrite Nat.sub_diag.
    - simpl. unfold outer. by rewrite lookup_app_r, Nat.sub_diag. }
  erewrite bind_ret by exact H1.
  erewrite bind_ret.
  2:{ rewrite with_collector_run. erewrite bind_ret by exact H2. reflexivity. }
  change (set_handler (pipeline_decorator_handler w2) _) with w3.
  rewrite Hlen2.
  erewrite bind_ret by exact H3.
  eexists. split; [reflexivity|]. done.
Qed.

(** *** The message of the ambiguity error *)



End further_compile_facts.

(** * The further properties on concrete inputs *)

(** [kfp --install-completion zsh], then [fish] with no
    [~/.config/fish/completions] directory, then a shell that is not known. *)
Lemma _install_completion_shells_witness :
  ("zsh" ∈ ["bash"; "zsh"; "fish"]) ∧
  @_install_completion env "zsh" w0
  = (emit (EvFileAppend "/root/.zshrc"
             (newline +:+ _create_completion "zsh" +:+ newline)) w0, Ret tt) ∧
  ("fish" ∈ ["bash"; "zsh"; "fish"]) ∧
  @_install_completion env "fish" w0
  = (w0, Raise (OtherException "FileNotFoundError"
       "[Errno 2] No such file or directory: '/root/.config/fish/completions/kfp.fish'")) ∧
  ("ksh" ∉ ["bash"; "zsh"; "fish"]) ∧
  @_install_completion env "ksh" w0 = (w0, Raise (KeyError "'ksh'")).
Proof.
  assert (H1 : "zsh" ∈ ["bash"; "zsh"; "fish"]) by (right; left).
  assert (H2 : "ksh" ∉ ["bash"; "zsh"; "fish"]).
  { rewrite !elem_of_cons, elem_of_nil. intros [?|[?|[?|[]]]]; discriminate. }
  assert (H3 : "fish" ∈ ["bash"; "zsh"; "fish"]) by (right; right; left).
  destruct (proj1 (@_install_completion_shells env "zsh" w0) H1) as (parts & Hparts & Hrun).
  destruct (proj1 (@_install_completion_shells env "fish" w0) H3) as (parts' & Hparts' & Hrun').
  split_and!; [exact H1| |exact H3| |exact H2
              |exact (proj2 (@_install_completion_shells env "ksh" w0) H2)].
  - rewrite Hrun. vm_compute in Hparts. injection Hparts as <-. reflexivity.
  - rewrite Hrun'. vm_compute in Hparts'. injection Hparts' as <-. reflexivity.
Defined.

Lemma _create_completion_inj_witness :
  _create_completion "bash" = _create_completion "bash" ∧ "bash" = "bash".
Proof.
  assert (H : _create_completion "bash" = _create_completion "bash") by reflexivity.
  split; [exact H|exact (_create_completion_inj "bash" "bash" H)].
Defined.

(** [kfp --show-completion fish --install-completion bash runs] and
    [kfp --install-completion bash runs] *)
Lemma cli_completion_options_witness :
  @cli env commands (ctx0 (Some "runs")) None None "kubeflow" None None "table"
     (Some "fish") (Some "bash") w0
  = (emit (EvEcho false (_create_completion "fish")) w0, Ret (ctx0 (Some "runs"))) ∧
  (@cli env commands (ctx0 (Some "runs")) None None "kubeflow" None None "table"
     None (Some "bash") w0).2 = Ret (ctx0 (Some "runs")).
Proof.
  split.
  - exact (proj1 (@cli_completion_options env commands (ctx0 (Some "runs")) None None
      "kubeflow" None None "table" (Some "fish") (Some "bash") w0)
      "fish" eq_refl ltac:(discriminate)).
  - destruct (proj2 (@cli_completion_options env commands (ctx0 (Some "runs")) None None
      "kubeflow" None None "table" None (Some "bash") w0)
      eq_refl "bash" eq_refl ltac:(discriminate)) as [_ H2].
    rewrite H2. reflexivity.
Defined.

(** [kfp -n team-a --output json pipelines ...] on a context that already
    holds an item. *)
Lemma cli_client_frame_witness :
  let ctx := {| invoked_subcommand := Some "pipelines";
                obj := <["user" := VStr "alice"]> ∅ |} in
  let r := @cli env commands ctx None None "team-a" None None "json" None None w0 in
  @is_client_command commands (invoked_subcommand ctx) = true ∧
  ∃ ctx', r.2 = Ret ctx' ∧
    obj ctx' !! "namespace" = Some (VStr "team-a") ∧
    obj ctx' !! "output" = Some (VStr "json") ∧
    obj ctx' !! "user" = Some (VStr "alice").
Proof.
  intros ctx r.
  assert (H3 : @is_client_command commands (invoked_subcommand ctx) = true)
    by (vm_compute; reflexivity).
  destruct (@cli_client_frame env commands ctx None None "team-a" None None "json"
    None None w0 eq_refl eq_refl H3 eq_refl) as (_ & ctx' & Hr & _ & Hns & Hout & Hframe).
  split; [exact H3|]. exists ctx'. split_and!; [exact Hr|exact Hns|exact Hout|].
  rewrite Hframe.
  - vm_compute. reflexivity.
  - rewrite !elem_of_cons, elem_of_nil. intros [?|[?|[?|[]]]]; discriminate.
Defined.

(** [kfp component ...] *)
Lemma cli_without_client_witness :
  let r := @cli env commands (ctx0 (Some "component")) None None "kubeflow" None None
             "table" None None w0 in
  @is_client_command commands (invoked_subcommand (ctx0 (Some "component"))) = false ∧
  client_calls (trace r.1) = [] ∧
  ∀ ctx', r.2 = Ret ctx' → ctx' = ctx0 (Some "component").
Proof.
  intros r.
  assert (H : @is_client_command commands (invoked_subcommand (ctx0 (Some "component")))
              = false) by (vm_compute; reflexivity).
  split; [exact H|].
  exact (@cli_without_client env commands (ctx0 (Some "component")) None None "kubeflow"
    None None "table" None None w0 (or_intror (or_intror H))).
Defined.

(** [--function train] on three functions, and no [--function] on the same
    three. *)
Lemma _compile_pipeline_function_reaches_compiler_witness :
  let fs := [evaluate; train; train_again] in
  (∃ f, f ∈ fs ∧
     @_compile_pipeline_function env fs (Some "train") (Some empty_dict) "out.json" true w0
     = @Compiler_compile_call env
         {| pipeline_func := f; pipeline_parameters := Some empty_dict;
            package_path := "out.json"; type_check := true |} w0) ∧
  (∃ msg, @_compile_pipeline_function env fs None (Some empty_dict) "out.json" true w0
          = (w0, Raise (ValueError msg))).
Proof.
  intros fs. split.
  - apply (proj1 (@_compile_pipeline_function_reaches_compiler env fs (Some "train")
      (Some empty_dict) "out.json" true w0)).
    split; [discriminate|]. exists train. split; [right; left|reflexivity].
  - apply (proj2 (@_compile_pipeline_function_reaches_compiler env fs None
      (Some empty_dict) "out.json" true w0)).
    intros [_ Hlen]. simpl in Hlen. discriminate.
Defined.

(** [kfp dsl compile --py /home/u/one.py --output out.json] *)
Lemma dsl_compile_compiler_outcome_witness :
  let w2 := (@imported env "/home/u/one.py" w0).1 in
  let call := {| pipeline_func := train; pipeline_parameters := Some empty_dict;
                 package_path := "out.json"; type_check := true |} in
  @imported env "/home/u/one.py" w0 = (w2, Ret [train]) ∧
  sys_path w2 ≠ [] ∧
  @dsl_compile env "/home/u/one.py" "out.json" None None false w0
  = (set_sys_path (drop 1 (sys_path w2)) (emit (EvCompile call) w2), Ret tt).
Proof.
  intros w2 call.
  assert (H1 : @imported env "/home/u/one.py" w0 = (w2, Ret [train]))
    by (vm_compute; reflexivity).
  assert (H4 : sys_path w2 ≠ []) by (vm_compute; discriminate).
  split_and!; [exact H1|exact H4|].
  exact (@dsl_compile_compiler_outcome env "/home/u/one.py" "out.json" None None false
    w0 w2 [train] empty_dict call H1 eq_refl eq_refl H4).
Defined.

(** A file that empties [sys.path] and then decorates a function. *)
Lemma dsl_compile_finally_masks_witness :
  let w2 := (@imported more_files.env "/home/u/wipes_path.py" w0).1 in
  @imported more_files.env "/home/u/wipes_path.py" w0 = (w2, Ret [train]) ∧
  sys_path w2 = [] ∧
  (@dsl_compile more_files.env "/home/u/wipes_path.py" "out.json" None None false w0).2
  = Raise (IndexError "list assignment index out of range").
Proof.
  intros w2.
  assert (H1 : @imported more_files.env "/home/u/wipes_path.py" w0 = (w2, Ret [train]))
    by (vm_compute; reflexivity).
  assert (H2 : sys_path w2 = []) by (vm_compute; reflexivity).
  split_and!; [exact H1|exact H2|].
  exact (@dsl_compile_finally_masks more_files.env "/home/u/wipes_path.py" "out.json"
    None None false w0 w2 _ H1 H2).
Defined.

(** A path with no file behind it. *)
Lemma dsl_compile_raises_Exception_witness :
  (@dsl_compile env "/home/u/nofile.py" "out.json" None None false w0).2
  = Raise (ImportError "No module named 'nofile'") ∧
  isinstance_Exception (ImportError "No module named 'nofile'") = true.
Proof.
  assert (H3 : (@dsl_compile env "/home/u/nofile.py" "out.json" None None false w0).2
               = Raise (ImportError "No module named 'nofile'"))
    by (vm_compute; reflexivity).
  split; [exact H3|].
  refine (@dsl_compile_raises_Exception env "/home/u/nofile.py" "out.json" None None false
    w0 _ _ _ H3).
  - vm_compute. reflexivity.
  - intros c e' Hc. discriminate Hc.
Defined.

(** A file that raises after its two decorated functions, imported while
    another list is already on the heap. *)
Lemma collect_pipelines_collects_witness :
  let w := set_heap [[train_again]] w0 in
  let r := @collect_pipelines env "two_then_fails.py" w in
  r.2 = Raise (OtherException "RuntimeError" "boom") ∧
  heap r.1 = [[train_again]; [train; evaluate]].
Proof.
  intros w r.
  assert (Hm : forallb (λ s, negb (assigns_handler s))
    (@module_code env (@os_path_splitext env "two_then_fails.py").1 (sys_path w)) = true)
    by (vm_compute; reflexivity).
  split; [vm_compute; reflexivity|].
  exact (proj1 (@collect_pipelines_collects env "two_then_fails.py" w Hm)).
Defined.


(** [kfp experiments ...] and [kfp diagnose-me]. *)
Lemma cli_client_command_names_witness :
  let a := {| host := None; client_id := None; client_namespace := "kubeflow";
              client_other_client_id := None; client_other_client_secret := None |} in
  trace (@cli env commands (ctx0 (Some "experiments")) None None "kubeflow" None None
           "table" None None w0).1 = [EvClient a] ∧
  @cli env commands (ctx0 (Some "diagnose-me")) None None "kubeflow" None None
    "table" None None w0 = (w0, Ret (ctx0 (Some "diagnose-me"))).
Proof.
  intros a. split.
  - apply (proj1 (@cli_client_command_names env commands (ctx0 (Some "experiments"))
      None None "kubeflow" None None "table" None None w0 eq_refl eq_refl)).
    exists "experiments", (@experiment commands). split_and!; [reflexivity| |right; reflexivity].
    right; right; left.
  - apply (proj1 (proj2 (@cli_client_command_names env commands
      (ctx0 (Some "diagnose-me")) None None "kubeflow" None None "table" None None w0
      eq_refl eq_refl))).
    intros (s & command & Heq & Hc & Hs). injection Heq as <-.
    rewrite !elem_of_cons, elem_of_nil in Hc.
    destruct Hc as [ -> | [ -> | [ -> | [ -> | [] ] ] ] ]; destruct Hs; discriminate.
Defined.
